(** * Record stores of the student-performance and library-catalog programs

    A shallow embedding of [AOL_Unit2.py] (student records) and
    [Final_Project.py] (library books, score helpers), with the properties
    their specification states about identifiers, search, sort, update,
    validation, statistics and CSV persistence.

    Modelling conventions.
    - A Python [str] is a [string]; characters are ASCII code points, and
      [is_space] is [str.isspace] restricted to them.
    - A Python [int] is a [Z].
    - A Python list is a [list]; indexing is stdpp's lookup [!!] and item
      assignment is [<[i:=x]>].
    - What [csv.reader] yields and [csv.writer] receives is a list of rows,
      each row a list of cells; the quoting layer below is the platform's.
    - A raised exception is the [Raise] outcome of the [result] type, paired
      with the store as it is when the exception leaves the method.
    - [input()] takes the next line of a list of typed lines; on an exhausted
      list it raises [EOFError]. *)

From Stdlib Require Import ZArith List String Ascii Lia Permutation Sorted.
From Stdlib Require Import Numbers.DecimalString Numbers.DecimalZ.
From Stdlib Require Import Reals Lra.
From stdpp Require Import base list strings gmap sorting.

Open Scope string_scope.
Open Scope Z_scope.

(** ** Python strings *)

Module PyStr.

(** [str.isspace] on one ASCII character: TAB, LF, VT, FF, CR, the four
    separators FS GS RS US, and the space. *)
Definition is_space (c : ascii) : bool :=
  let n := nat_of_ascii c in
  ((9 <=? n) && (n <=? 13) || (28 <=? n) && (n <=? 32))%nat.

Fixpoint lstrip (s : string) : string :=
  match s with
  | EmptyString => EmptyString
  | String c s' => if is_space c then lstrip s' else s
  end.

Fixpoint rstrip (s : string) : string :=
  match s with
  | EmptyString => EmptyString
  | String c s' =>
      match rstrip s' with
      | EmptyString => if is_space c then EmptyString else String c EmptyString
      | r => String c r
      end
  end.

(** [s.strip()] *)
Definition strip (s : string) : string := rstrip (lstrip s).

(** [s.split()] with no separator: the maximal runs of non-space
    characters, in order. *)
Fixpoint split (s : string) : list string :=
  match s with
  | EmptyString => []
  | String c s' =>
      if is_space c then split s'
      else match s' with
           | EmptyString => [String c EmptyString]
           | String c' _ =>
               if is_space c' then String c EmptyString :: split s'
               else match split s' with
                    | w :: ws => String c w :: ws
                    | [] => [String c EmptyString]
                    end
           end
  end.

(** [sep.join(ws)] *)
Fixpoint join (sep : string) (ws : list string) : string :=
  match ws with
  | [] => EmptyString
  | [w] => w
  | w :: ws' => w ++ sep ++ join sep ws'
  end.

Definition lower_char (c : ascii) : ascii :=
  let n := nat_of_ascii c in
  if ((65 <=? n) && (n <=? 90))%nat then ascii_of_nat (n + 32) else c.

(** [s.lower()] *)
Fixpoint lower (s : string) : string :=
  match s with
  | EmptyString => EmptyString
  | String c s' => String (lower_char c) (lower s')
  end.

Definition digit_val (c : ascii) : option Z :=
  let n := nat_of_ascii c in
  if ((48 <=? n) && (n <=? 57))%nat then Some (Z.of_nat (n - 48)) else None.

(** [s.isdigit()]: non-empty and every character a digit. *)
Fixpoint all_digits (s : string) : bool :=
  match s with
  | EmptyString => true
  | String c s' => bool_decide (is_Some (digit_val c)) && all_digits s'
  end.

Definition isdigit (s : string) : bool :=
  match s with
  | EmptyString => false
  | _ => all_digits s
  end.

(** The digit part of an integer literal: digits, with single underscores
    allowed between two digits. [prev] tells whether the previous character
    was a digit. *)
Fixpoint parse_digits (s : string) (acc : Z) (prev : bool) : option Z :=
  match s with
  | EmptyString => if prev then Some acc else None
  | String c s' =>
      if Ascii.eqb c "_"%char then
        if prev then parse_digits s' acc false else None
      else match digit_val c with
           | Some d => parse_digits s' (10 * acc + d) true
           | None => None
           end
  end.

(** [int(s)] for a string: [None] stands for [ValueError]. *)
Definition py_int (s : string) : option Z :=
  match strip s with
  | EmptyString => None
  | String c r =>
      if Ascii.eqb c "+"%char then parse_digits r 0 false
      else if Ascii.eqb c "-"%char then Z.opp <$> parse_digits r 0 false
      else parse_digits (String c r) 0 false
  end.

(** [str(n)] for an int. *)
Definition py_str (n : Z) : string := NilZero.string_of_int (Z.to_int n).

(** Truthiness of a string: [if s:]. *)
Definition truthy (s : string) : bool := negb (String.eqb s EmptyString).

(** [a > b] and [a < b] on strings (code-point lexicographic order). *)
Definition str_gt (a b : string) : bool := String.ltb b a.
Definition str_lt (a b : string) : bool := String.ltb a b.

End PyStr.

Import PyStr.

(** ** Exceptions and stateful methods *)

Inductive exn : Type :=
  | ValueError (msg : string)
  | LookupError (msg : string)
  | FileNotFoundError (msg : string)
  | RuntimeError (msg : string)
  | ZeroDivisionError
  | IndexError
  | EOFError.

(** [str(e)] *)
Definition exn_message (e : exn) : string :=
  match e with
  | ValueError msg | LookupError msg | FileNotFoundError msg | RuntimeError msg => msg
  | ZeroDivisionError => "division by zero"
  | IndexError => "list index out of range"
  | EOFError => "EOF when reading a line"
  end.

Inductive result (A : Type) : Type :=
  | Return (a : A)
  | Raise (e : exn).
Arguments Return {A} a.
Arguments Raise {A} e.

(** A method over a mutable state [S]: the outcome, and the state as the
    method leaves it (also when it raises). *)
Definition M (S A : Type) : Type := S -> result A * S.

Definition ret {S A} (a : A) : M S A := fun s => (Return a, s).
Definition raise {S A} (e : exn) : M S A := fun s => (Raise e, s).
Definition bind {S A B} (c : M S A) (k : A -> M S B) : M S B :=
  fun s => match c s with
           | (Return a, s') => k a s'
           | (Raise e, s') => (Raise e, s')
           end.
Definition get {S} : M S S := fun s => (Return s, s).
Definition put {S} (s : S) : M S unit := fun _ => (Return tt, s).
Definition modify {S} (f : S -> S) : M S unit := fun s => (Return tt, f s).

Declare Scope method_scope.
Delimit Scope method_scope with method.
Notation "x <~ c ;; k" := (bind c (fun x => k))
  (at level 100, c at next level, right associativity) : method_scope.
Notation "c ;;; k" := (bind c (fun _ => k))
  (at level 100, right associativity) : method_scope.

(** ** CSV rows as the platform reader and writer exchange them *)

Module Csv.

(** The rows [csv.reader] yields for a file; a blank line is the row [[]]. *)
Definition file : Type := list (list string).

(** [DictReader.fieldnames]: the first row, if any. *)
Definition fieldnames (f : file) : option (list string) := head f.

(** The dict [DictReader] builds for one row: [dict(zip(fieldnames, row))],
    a later duplicate column name overriding an earlier one. Columns beyond
    the row's length get [restval = None], which [row.get(k) or ""] reads
    like an absent key; cells beyond the header go under the key [None],
    which no string reads. *)
Definition row_dict (header row : list string) : gmap string string :=
  list_to_map (reverse (zip header row)).

(** The rows [DictReader] iterates over: every row after the header that is
    not blank. *)
Definition dict_rows (f : file) : list (gmap string string) :=
  match f with
  | [] => []
  | header :: body =>
      row_dict header <$> filter (fun r => r <> []) body
  end.

(** [(row.get(k) or "")] *)
Definition get_or_empty (row : gmap string string) (k : string) : string :=
  default EmptyString (row !! k).

(** A cell handed to [csv.writer]: ints are written with [str]. *)
Inductive cell : Type := CInt (n : Z) | CStr (s : string).

Definition cell_str (c : cell) : string :=
  match c with CInt n => py_str n | CStr s => s end.

(** [DictWriter.writerow(rowdict)]: the cells in [fieldnames] order, a
    missing key written as the empty string. *)
Definition writerow (names : list string) (rowdict : gmap string cell) : list string :=
  (fun k => default EmptyString (cell_str <$> rowdict !! k)) <$> names.

End Csv.

(** ** Comparison of keys *)

(** [a < b] on a key type; [a > b] is [b < a] and [a <= b] is [not (b < a)]
    for the ints, strings and (non-NaN) floats the programs sort by. *)
Class PyOrd (K : Type) := py_lt : K -> K -> bool.
Definition py_gt {K} `{PyOrd K} (a b : K) : bool := py_lt b a.
Definition py_le {K} `{PyOrd K} (a b : K) : bool := negb (py_lt b a).
Definition py_ge {K} `{PyOrd K} (a b : K) : bool := negb (py_lt a b).

#[export] Instance PyOrd_Z : PyOrd Z := Z.ltb.
#[export] Instance PyOrd_string : PyOrd string := String.ltb.
#[export] Instance PyOrd_R : PyOrd R := fun a b => if Rlt_dec a b then true else false.

(** The laws of a total order, which Python's [<] has on each of them. *)
Class PyTotalOrder (K : Type) `{PyOrd K} : Prop := {
  py_lt_irrefl : forall a : K, py_lt a a = false;
  py_lt_trans : forall a b c : K, py_lt a b = true -> py_lt b c = true -> py_lt a c = true;
  py_lt_total : forall a b : K, py_lt a b = false -> py_lt b a = false -> a = b
}.

(** ** Sorting *)

Section Sorting.
Context {A K : Type} `{PyOrd K}.

(** The inner [while j >= 0 and before(key_fn(records[j]), current_key)]
    loop of the insertion sort, with [records[j + 1] = records[j]] and
    [j -= 1] as its body. The counter is [j + 1], so [j >= 0] reads
    [j + 1 > 0]. [None] is an [IndexError]. *)
Fixpoint shift_loop (before : K -> K -> bool) (key_fn : A -> K)
    (current_key : K) (records : list A) (j1 : nat) : option (list A * nat) :=
  match j1 with
  | O => Some (records, O)
  | S j =>
      match records !! j with
      | None => None
      | Some rj =>
          if before (key_fn rj) current_key
          then if bool_decide (S j < length records)%nat
               then shift_loop before key_fn current_key (<[S j := rj]> records) j
               else None
          else Some (records, j1)
      end
  end.

(** One pass of the outer loop, for index [i]. *)
Definition insert_pass (before : K -> K -> bool) (key_fn : A -> K)
    (records : list A) (i : nat) : option (list A) :=
  match records !! i with
  | None => None
  | Some current =>
      match shift_loop before key_fn (key_fn current) records i with
      | None => None
      | Some (records', j1) =>
          if bool_decide (j1 < length records')%nat
          then Some (<[j1 := current]> records')
          else None
      end
  end.

(** [for i in range(1, len(records))] *)
Fixpoint insert_passes (before : K -> K -> bool) (key_fn : A -> K)
    (records : list A) (idxs : list nat) : option (list A) :=
  match idxs with
  | [] => Some records
  | i :: idxs' =>
      match insert_pass before key_fn records i with
      | None => None
      | Some records' => insert_passes before key_fn records' idxs'
      end
  end.

(** [insertion_sort(records, key_fn, reverse)] of AOL_Unit2.py: ascending
    shifts while the left key is greater, descending while it is less. *)
Definition insertion_sort (records : list A) (key_fn : A -> K) (reverse : bool)
    : option (list A) :=
  insert_passes (if reverse then py_lt else py_gt) key_fn records
    (seq 1 (length records - 1)).

(** Modelled from the spec: the platform sort, [sorted] and [list.sort],
    is not code of the repository. The spec calls it a general-purpose
    comparison sort whose ties preserve original relative order; it is
    modelled as a merge sort that takes from the left run on a tie, and
    for [reverse=True] as the platform does it: reverse, sort, reverse. *)
Fixpoint merge_runs (key_fn : A -> K) (l1 : list A) : list A -> list A :=
  fix merge_right (l2 : list A) : list A :=
    match l1, l2 with
    | [], _ => l2
    | _, [] => l1
    | a :: l1', b :: l2' =>
        if py_lt (key_fn b) (key_fn a)
        then b :: merge_right l2'
        else a :: merge_runs key_fn l1' l2
    end.

Fixpoint merge_sort (fuel : nat) (key_fn : A -> K) (l : list A) : list A :=
  match fuel with
  | O => l
  | S fuel' =>
      match l with
      | [] | [_] => l
      | _ =>
          let half := (length l / 2)%nat in
          merge_runs key_fn (merge_sort fuel' key_fn (take half l))
                            (merge_sort fuel' key_fn (drop half l))
      end
  end.

Definition py_sorted (l : list A) (key_fn : A -> K) (reverse : bool) : list A :=
  if reverse
  then rev (merge_sort (length l) key_fn (rev l))
  else merge_sort (length l) key_fn l.

(** Two elements compared by their keys. *)
Definition key_rel (rel : K -> K -> bool) (key_fn : A -> K) (x y : A) : Prop :=
  rel (key_fn x) (key_fn y) = true.

End Sorting.

(** ** Final_Project.py: the library catalog *)

Module Library.

Record Book : Type := mkBook {
  bid : Z;
  title : string;
  author : string;
  category : string;
  status : string
}.

(** [Book.to_row] *)
Definition to_row (b : Book) : list string :=
  [py_str (bid b); title b; author b; category b; status b].

Record LibrarySystem : Type := mkLibrarySystem {
  _books : list Book;
  _loaded_file : option string
}.

(** [LibrarySystem()] *)
Definition init : LibrarySystem :=
  {| _books := []; _loaded_file := None |}.

Definition set_books (bs : list Book) (s : LibrarySystem) : LibrarySystem :=
  {| _books := bs; _loaded_file := _loaded_file s |}.
Definition set_loaded_file (f : string) (s : LibrarySystem) : LibrarySystem :=
  {| _books := _books s; _loaded_file := Some f |}.

Definition _clean_text (s : string) : string := join " " (split (strip s)).

Definition _normalize_status (s : string) : string :=
  let s := lower (_clean_text s) in
  if bool_decide (s ∈ ["issued"; "issue"]) then "issued"
  else if bool_decide (s ∈ ["available"; "avail"; "in"; "in stock"]) then "available"
  else s.

Definition _is_valid_status (s : string) : bool :=
  bool_decide (s ∈ ["issued"; "available"]).

(** [max(b.bid for b in books)] on a non-empty list. *)
Definition max_bid (b : Book) (bs : list Book) : Z :=
  fold_left (fun m b' => if m <? bid b' then bid b' else m) bs (bid b).

Definition _next_id (s : LibrarySystem) : Z :=
  match _books s with
  | [] => 1
  | b :: bs => max_bid b bs + 1
  end.

Fixpoint find_in (bs : list Book) (target_id : Z) : option Book :=
  match bs with
  | [] => None
  | b :: bs' => if bid b =? target_id then Some b else find_in bs' target_id
  end.

Definition _find_by_id_linear (s : LibrarySystem) (target_id : Z) : option Book :=
  find_in (_books s) target_id.

Definition _find_all_by_title_linear (s : LibrarySystem) (t : string) : list Book :=
  let t := lower (_clean_text t) in
  filter (fun b => lower (title b) = t) (_books s).

Definition required : list string := ["bid"; "title"; "author"; "category"; "status"].

(** The body of [for row in reader] for one row: [None] is [continue]. *)
Definition load_row (row : gmap string string) : result (option Book) :=
  let bid_str := strip (Csv.get_or_empty row "bid") in
  let title := _clean_text (Csv.get_or_empty row "title") in
  let author := _clean_text (Csv.get_or_empty row "author") in
  let category := _clean_text (Csv.get_or_empty row "category") in
  let status := _normalize_status (Csv.get_or_empty row "status") in
  if negb (isdigit bid_str) then Return None
  else match py_int bid_str with
       | None => Raise (ValueError "invalid literal for int()")
       | Some bid =>
           if String.eqb title "" || String.eqb author "" || String.eqb category ""
              || negb (_is_valid_status status)
           then Return None
           else Return (Some (mkBook bid title author category status))
       end.

Fixpoint load_rows (rows : list (gmap string string)) (loaded : list Book)
    : result (list Book) :=
  match rows with
  | [] => Return loaded
  | row :: rows' =>
      match load_row row with
      | Raise e => Raise e
      | Return None => load_rows rows' loaded
      | Return (Some b) => load_rows rows' (loaded ++ [b])
      end
  end.

(** The body of the [try] of [load_from_csv], up to the assignment of the
    loaded list. *)
Definition load_body (f : Csv.file) : result (list Book) :=
  match Csv.fieldnames f with
  | None => Raise (ValueError "Invalid CSV format: missing required headers.")
  | Some names =>
      if negb (bool_decide (required ⊆ names))
      then Raise (ValueError "Invalid CSV format: missing required headers.")
      else load_rows (Csv.dict_rows f) []
  end.

(** [load_from_csv(filepath)]; [fs filepath] is the rows of the file at that
    path, [None] when there is none. Every exception of the body other than
    [FileNotFoundError] is re-raised as a [RuntimeError]. *)
Definition load_from_csv (fs : string -> option Csv.file) (filepath : string)
    : M LibrarySystem unit :=
  match fs filepath with
  | None => raise (FileNotFoundError ("File not found: " ++ filepath))
  | Some f =>
      match load_body f with
      | Raise e => raise (RuntimeError ("Could not load file. Reason: " ++ exn_message e))
      | Return loaded =>
          modify (fun s => set_loaded_file filepath (set_books loaded s))
      end
  end.

Definition save_row (b : Book) : gmap string Csv.cell :=
  {[ "bid" := Csv.CInt (bid b); "title" := Csv.CStr (title b);
     "author" := Csv.CStr (author b); "category" := Csv.CStr (category b);
     "status" := Csv.CStr (status b) ]}.

(** [save_to_csv(filepath)]: the rows written to the file, header first. *)
Definition save_to_csv (filepath : string) : M LibrarySystem Csv.file :=
  (s <~ get ;;
   let fieldnames := ["bid"; "title"; "author"; "category"; "status"] in
   let rows := fieldnames :: ((fun b => Csv.writerow fieldnames (save_row b)) <$> _books s) in
   modify (set_loaded_file filepath) ;;;
   ret rows)%method.

Definition title_key (b : Book) : string := lower (title b).

(** [insertion_sort_by_title]: the same two loops as the students'
    insertion sort, shifting while the left title is greater. *)
Definition insertion_sort_by_title : M LibrarySystem unit :=
  (s <~ get ;;
   match insert_passes py_gt title_key (_books s) (seq 1 (length (_books s) - 1)) with
   | None => raise IndexError
   | Some bs => put (set_books bs s)
   end)%method.

Definition sort_by_id_builtin : M LibrarySystem unit :=
  modify (fun s => set_books (py_sorted (_books s) bid false) s).

Definition add_book (title author category status : string) : M LibrarySystem Book :=
  (let title := _clean_text title in
   let author := _clean_text author in
   let category := _clean_text category in
   let status := _normalize_status status in
   if String.eqb title "" || String.eqb author "" || String.eqb category ""
   then raise (ValueError "Title/author/category cannot be empty.")
   else if negb (_is_valid_status status)
   then raise (ValueError "Status must be 'issued' or 'available'.")
   else
     s <~ get ;;
     let new_book := mkBook (_next_id s) title author category status in
     put (set_books (_books s ++ [new_book]) s) ;;;
     ret new_book)%method.

(** Assignment to the fields of the object [_find_by_id_linear] returned:
    the first book of the list with that id is the one changed. *)
Fixpoint assign_found (bs : list Book) (target_id : Z) (f : Book -> Book) : list Book :=
  match bs with
  | [] => []
  | b :: bs' =>
      if bid b =? target_id then f b :: bs' else b :: assign_found bs' target_id f
  end.

Definition update_book (bid0 : Z) (title author category status : string)
    : M LibrarySystem unit :=
  (s <~ get ;;
   match _find_by_id_linear s bid0 with
   | None => raise (LookupError "Book ID not found.")
   | Some _ =>
       let title := _clean_text title in
       let author := _clean_text author in
       let category := _clean_text category in
       let status := _normalize_status status in
       if String.eqb title "" || String.eqb author "" || String.eqb category ""
       then raise (ValueError "Title/author/category cannot be empty.")
       else if negb (_is_valid_status status)
       then raise (ValueError "Status must be 'issued' or 'available'.")
       else put (set_books
                   (assign_found (_books s) bid0
                      (fun b => mkBook (bid b) title author category status)) s)
   end)%method.

(** [del self._books[i]] at the first [i] whose book has the id. *)
Fixpoint delete_first (bs : list Book) (bid0 : Z) : option (list Book) :=
  match bs with
  | [] => None
  | b :: bs' =>
      if bid b =? bid0 then Some bs'
      else cons b <$> delete_first bs' bid0
  end.

Definition delete_book (bid0 : Z) : M LibrarySystem unit :=
  (s <~ get ;;
   match delete_first (_books s) bid0 with
   | Some bs => put (set_books bs s)
   | None => raise (LookupError "Book ID not found.")
   end)%method.

(** *** Unit 3 Lesson 3 A: score helpers *)



End Library.

(** ** Floats of the statistics, as real numbers

    A Python float is modelled as a real number or [nan]; rounding is not
    modelled. *)

Inductive pyfloat : Type := nan | fin (x : R).

Definition of_int (z : Z) : pyfloat := fin (IZR z).

Definition lift2 (op : R -> R -> R) (a b : pyfloat) : pyfloat :=
  match a, b with
  | fin x, fin y => fin (op x y)
  | _, _ => nan
  end.

Definition fadd : pyfloat -> pyfloat -> pyfloat := lift2 Rplus.
Definition fsub : pyfloat -> pyfloat -> pyfloat := lift2 Rminus.
Definition fsquare (a : pyfloat) : pyfloat := lift2 Rmult a a.

(** [a / b]: [ZeroDivisionError] on a zero divisor. *)
Definition truediv (a b : pyfloat) : result pyfloat :=
  match b with
  | nan => Return nan
  | fin y => if Req_dec_T y 0 then Raise ZeroDivisionError
             else Return (lift2 Rdiv a b)
  end.

(** [math.sqrt]: [ValueError] below zero. *)
Definition math_sqrt (a : pyfloat) : result pyfloat :=
  match a with
  | nan => Return nan
  | fin x => if Rlt_dec x 0 then Raise (ValueError "math domain error")
             else Return (fin (sqrt x))
  end.

(** The builtin [min] and [max] of a list: [ValueError] on an empty one. *)
Definition py_min {K} `{PyOrd K} (values : list K) : result K :=
  match values with
  | [] => Raise (ValueError "min() arg is an empty sequence")
  | v0 :: vs => Return (fold_left (fun m v => if py_lt v m then v else m) vs v0)
  end.

Definition py_max {K} `{PyOrd K} (values : list K) : result K :=
  match values with
  | [] => Raise (ValueError "max() arg is an empty sequence")
  | v0 :: vs => Return (fold_left (fun m v => if py_gt v m then v else m) vs v0)
  end.

(** [sum(values)] of ints, and of floats starting from the int [0]. *)
Definition sum_int (values : list Z) : Z := fold_left Z.add values 0.
Definition sum_float (values : list pyfloat) : pyfloat := fold_left fadd values (of_int 0).

Definition result_bind {A B} (r : result A) (k : A -> result B) : result B :=
  match r with
  | Return a => k a
  | Raise e => Raise e
  end.

(** ** AOL_Unit2.py: the student records *)

Module Students.

Record StudentRecord : Type := mkStudentRecord {
  student_id : Z;
  gender : string;
  race_ethnicity : string;
  parental_education : string;
  lunch : string;
  prep_course : string;
  math_score : Z;
  reading_score : Z;
  writing_score : Z
}.

(** [StudentRecord.average]: a float, never [nan]; as a sort key it is
    compared as the real number it stands for. *)
Definition average (r : StudentRecord) : R :=
  (IZR (math_score r + reading_score r + writing_score r) / 3)%R.

Definition to_row (r : StudentRecord) : gmap string Csv.cell :=
  {[ "student_id" := Csv.CInt (student_id r);
     "gender" := Csv.CStr (gender r);
     "race/ethnicity" := Csv.CStr (race_ethnicity r);
     "parental level of education" := Csv.CStr (parental_education r);
     "lunch" := Csv.CStr (lunch r);
     "test preparation course" := Csv.CStr (prep_course r);
     "math score" := Csv.CInt (math_score r);
     "reading score" := Csv.CInt (reading_score r);
     "writing score" := Csv.CInt (writing_score r) ]}.

Definition set_gender v r := mkStudentRecord (student_id r) v (race_ethnicity r)
  (parental_education r) (lunch r) (prep_course r) (math_score r) (reading_score r) (writing_score r).
Definition set_race_ethnicity v r := mkStudentRecord (student_id r) (gender r) v
  (parental_education r) (lunch r) (prep_course r) (math_score r) (reading_score r) (writing_score r).
Definition set_parental_education v r := mkStudentRecord (student_id r) (gender r) (race_ethnicity r)
  v (lunch r) (prep_course r) (math_score r) (reading_score r) (writing_score r).
Definition set_lunch v r := mkStudentRecord (student_id r) (gender r) (race_ethnicity r)
  (parental_education r) v (prep_course r) (math_score r) (reading_score r) (writing_score r).
Definition set_prep_course v r := mkStudentRecord (student_id r) (gender r) (race_ethnicity r)
  (parental_education r) (lunch r) v (math_score r) (reading_score r) (writing_score r).
Definition set_math_score v r := mkStudentRecord (student_id r) (gender r) (race_ethnicity r)
  (parental_education r) (lunch r) (prep_course r) v (reading_score r) (writing_score r).
Definition set_reading_score v r := mkStudentRecord (student_id r) (gender r) (race_ethnicity r)
  (parental_education r) (lunch r) (prep_course r) (math_score r) v (writing_score r).
Definition set_writing_score v r := mkStudentRecord (student_id r) (gender r) (race_ethnicity r)
  (parental_education r) (lunch r) (prep_course r) (math_score r) (reading_score r) v.

(** The list [records] of [main] and the lines still to be typed. *)
Record Session : Type := mkSession {
  records : list StudentRecord;
  stdin : list string
}.

Definition set_records (rs : list StudentRecord) (s : Session) : Session :=
  {| records := rs; stdin := stdin s |}.
Definition set_stdin (lines : list string) (s : Session) : Session :=
  {| records := records s; stdin := lines |}.

(** [input(prompt)] *)
Definition input : M Session string :=
  fun s => match stdin s with
           | [] => (Raise EOFError, s)
           | line :: rest => (Return line, set_stdin rest s)
           end.

(** A prompt loop reads lines until one is accepted. *)
Fixpoint prompt_loop {A} (accept : string -> option A) (lines : list string)
    : result A * list string :=
  match lines with
  | [] => (Raise EOFError, [])
  | line :: rest =>
      match accept line with
      | Some a => (Return a, rest)
      | None => prompt_loop accept rest
      end
  end.

Definition prompting {A} (accept : string -> option A) : M Session A :=
  fun s => let '(r, rest) := prompt_loop accept (stdin s) in (r, set_stdin rest s).

Definition accept_nonempty (line : string) : option string :=
  let v := strip line in
  if truthy v then Some v else None.

Definition prompt_nonempty : M Session string := prompting accept_nonempty.

Definition accept_int_range (lo hi : Z) (line : string) : option Z :=
  let raw := strip line in
  match py_int raw with
  | Some n => if (lo <=? n) && (n <=? hi) then Some n else None
  | None => None
  end.

Definition prompt_int_range (lo hi : Z) : M Session Z :=
  prompting (accept_int_range lo hi).

Definition accept_yes_no (line : string) : option bool :=
  let raw := lower (strip line) in
  if bool_decide (raw ∈ ["y"; "yes"]) then Some true
  else if bool_decide (raw ∈ ["n"; "no"]) then Some false
  else None.

Definition prompt_yes_no : M Session bool := prompting accept_yes_no.

Definition REQUIRED_COLS : list string :=
  ["gender"; "race/ethnicity"; "parental level of education"; "lunch";
   "test preparation course"; "math score"; "reading score"; "writing score"].

(** What [load_from_csv] prints about a load; the missing columns are
    listed here in the order of [REQUIRED_COLS] (the program prints them
    sorted). *)
Inductive load_note : Type :=
  | FileNotFound
  | MissingHeaderRow
  | MissingColumns (missing : list string)
  | SkippedRow (row_idx : nat).

(** The [try] body for one row: [None] when it raises, which skips the row. *)
Definition load_row (student_id : Z) (row : gmap string string) : option StudentRecord :=
  let gender := strip (Csv.get_or_empty row "gender") in
  let race := strip (Csv.get_or_empty row "race/ethnicity") in
  let parent_edu := strip (Csv.get_or_empty row "parental level of education") in
  let lunch := strip (Csv.get_or_empty row "lunch") in
  let prep := strip (Csv.get_or_empty row "test preparation course") in
  let m_raw := strip (Csv.get_or_empty row "math score") in
  let r_raw := strip (Csv.get_or_empty row "reading score") in
  let w_raw := strip (Csv.get_or_empty row "writing score") in
  m ← py_int m_raw;
  r ← py_int r_raw;
  w ← py_int w_raw;
  if negb (truthy gender && truthy race && truthy parent_edu && truthy lunch && truthy prep)
  then None
  else if negb ((0 <=? m) && (m <=? 100) && (0 <=? r) && (r <=? 100)
                && (0 <=? w) && (w <=? 100))
  then None
  else Some (mkStudentRecord student_id gender race parent_edu lunch prep m r w).

(** [for row_idx, row in enumerate(reader, start=2)], with the counter
    [student_id] advanced only after an append. *)
Fixpoint load_rows (rows : list (gmap string string)) (row_idx : nat) (student_id : Z)
    (records : list StudentRecord) (notes : list load_note)
    : list load_note * list StudentRecord :=
  match rows with
  | [] => (notes, records)
  | row :: rows' =>
      match load_row student_id row with
      | Some rec => load_rows rows' (S row_idx) (student_id + 1) (records ++ [rec]) notes
      | None => load_rows rows' (S row_idx) student_id records (notes ++ [SkippedRow row_idx])
      end
  end.

(** [load_from_csv(path)]: what it prints, and the list it returns. *)
Definition load_from_csv (fs : string -> option Csv.file) (path : string)
    : list load_note * list StudentRecord :=
  match fs path with
  | None => ([FileNotFound], [])
  | Some f =>
      match Csv.fieldnames f with
      | None | Some [] => ([MissingHeaderRow], [])
      | Some names =>
          let headers := strip <$> filter (fun h => truthy h = true) names in
          let missing := filter (fun c => c ∉ headers) REQUIRED_COLS in
          match missing with
          | _ :: _ => ([MissingColumns missing], [])
          | [] => load_rows (Csv.dict_rows f) 2 1 [] []
          end
      end
  end.

(** [save_to_csv(path, records)]: the rows written, header first. *)
Definition save_to_csv (records : list StudentRecord) : Csv.file :=
  let fieldnames :=
    ["student_id"; "gender"; "race/ethnicity"; "parental level of education";
     "lunch"; "test preparation course"; "math score"; "reading score";
     "writing score"] in
  fieldnames :: ((fun rec => Csv.writerow fieldnames (to_row rec)) <$> records).

(** [for i in range(len(records))] from index [i] on. *)
Fixpoint linear_search_from (records : list StudentRecord) (i : Z) (target_id : Z) : Z :=
  match records with
  | [] => -1
  | r :: rest =>
      if student_id r =? target_id then i
      else linear_search_from rest (i + 1) target_id
  end.

Definition linear_search_by_id (records : list StudentRecord) (target_id : Z) : Z :=
  linear_search_from records 0 target_id.

(** [sort_records], after its guard: the two prompts, then the chosen sort. *)
Definition sort_records : M Session unit :=
  (s <~ get ;;
   if bool_decide (records s = []) then ret tt
   else
     choice <~ prompt_int_range 1 4 ;;
     desc <~ prompt_yes_no ;;
     s <~ get ;;
     let rs := records s in
     if choice =? 1 then
       match insertion_sort rs average desc with
       | Some rs' => put (set_records rs' s)
       | None => raise IndexError
       end
     else if choice =? 2 then
       match insertion_sort rs math_score desc with
       | Some rs' => put (set_records rs' s)
       | None => raise IndexError
       end
     else if choice =? 3 then put (set_records (py_sorted rs reading_score desc) s)
     else put (set_records (py_sorted rs writing_score desc) s))%method.

Definition mean (values : list Z) : result pyfloat :=
  match values with
  | [] => Return nan
  | _ => truediv (of_int (sum_int values)) (of_int (Z.of_nat (length values)))
  end.

Definition stdev (values : list Z) : result pyfloat :=
  match values with
  | [] => Return nan
  | _ =>
      result_bind (mean values) (fun m =>
      result_bind (truediv (sum_float ((fun x => fsquare (fsub (of_int x) m)) <$> values))
                           (of_int (Z.of_nat (length values)))) (fun q =>
      math_sqrt q))
  end.

(** One line of the summary: mean, stdev, min and max of a score column. *)
Record score_line : Type := mkScoreLine {
  line_mean : pyfloat;
  line_stdev : pyfloat;
  line_min : Z;
  line_max : Z
}.

Definition score_summary (values : list Z) : result score_line :=
  result_bind (mean values) (fun m =>
  result_bind (stdev values) (fun sd =>
  result_bind (py_min values) (fun lo =>
  result_bind (py_max values) (fun hi =>
  Return (mkScoreLine m sd lo hi))))).

(** [sum(xs) / len(xs)] over floats. *)
Definition float_mean (xs : list R) : result pyfloat :=
  truediv (sum_float (fin <$> xs)) (of_int (Z.of_nat (length xs))).

(** The line of the averages: their mean, min and max. *)
Record average_line : Type := mkAverageLine {
  avg_mean : pyfloat;
  avg_min : R;
  avg_max : R
}.

(** The prep-course comparison: count and mean of each group. *)
Record prep_comparison : Type := mkPrepComparison {
  completed_n : nat;
  completed_mean : pyfloat;
  none_n : nat;
  none_mean : pyfloat
}.

Record summary : Type := mkSummary {
  math_line : score_line;
  reading_line : score_line;
  writing_line : score_line;
  averages : average_line;
  comparison : option prep_comparison
}.

(** [summary_statistics]: the figures it prints; [None] is the guarded
    "No data loaded." return. The comparison is printed only when both groups
    are non-empty. *)
Definition summary_statistics (records : list StudentRecord) : result (option summary) :=
  match records with
  | [] => Return None
  | _ =>
      let av := average <$> records in
      result_bind (score_summary (math_score <$> records)) (fun ms =>
      result_bind (score_summary (reading_score <$> records)) (fun rs =>
      result_bind (score_summary (writing_score <$> records)) (fun ws =>
      result_bind (float_mean av) (fun am =>
      result_bind (py_min av) (fun alo =>
      result_bind (py_max av) (fun ahi =>
      let completed :=
        average <$> filter (fun r => lower (prep_course r) = "completed") records in
      let none := average <$> filter (fun r => lower (prep_course r) = "none") records in
      match completed, none with
      | _ :: _, _ :: _ =>
          result_bind (float_mean completed) (fun cm =>
          result_bind (float_mean none) (fun nm =>
          Return (Some (mkSummary ms rs ws (mkAverageLine am alo ahi)
                          (Some (mkPrepComparison (length completed) cm
                                                  (length none) nm))))))
      | _, _ => Return (Some (mkSummary ms rs ws (mkAverageLine am alo ahi) None))
      end))))))
  end.

(** [max(r.student_id for r in records)] on a non-empty list. *)
Definition max_id (r : StudentRecord) (rs : list StudentRecord) : Z :=
  fold_left (fun m r' => if m <? student_id r' then student_id r' else m) rs (student_id r).

Definition next_available_id (records : list StudentRecord) : Z :=
  match records with
  | [] => 1
  | r :: rs => max_id r rs + 1
  end.

Definition add_record : M Session unit :=
  (s0 <~ get ;;
   let sid := next_available_id (records s0) in
   gender <~ prompt_nonempty ;;
   race <~ prompt_nonempty ;;
   parent_edu <~ prompt_nonempty ;;
   lunch <~ prompt_nonempty ;;
   prep <~ prompt_nonempty ;;
   m <~ prompt_int_range 0 100 ;;
   r <~ prompt_int_range 0 100 ;;
   w <~ prompt_int_range 0 100 ;;
   modify (fun s => set_records
     (records s ++ [mkStudentRecord sid gender race parent_edu lunch prep m r w]) s))%method.

(** [records[idx]], read, and assigned to through the reference [rec]. *)
Definition record_at (idx : nat) : M Session StudentRecord :=
  fun s => match records s !! idx with
           | Some r => (Return r, s)
           | None => (Raise IndexError, s)
           end.

Definition assign (idx : nat) (f : StudentRecord -> StudentRecord) : M Session unit :=
  modify (fun s => set_records (alter f idx (records s)) s).

Definition optional_text (current : string) : M Session string :=
  (line <~ input ;;
   let raw := strip line in
   ret (if truthy raw then raw else current))%method.

Definition optional_score (current : Z) : M Session Z :=
  (line <~ input ;;
   let raw := strip line in
   if negb (truthy raw) then ret current
   else match py_int raw with
        | Some v => if (0 <=? v) && (v <=? 100) then ret v else ret current
        | None => ret current
        end)%method.

Definition update_text (idx : nat) (getf : StudentRecord -> string)
    (setf : string -> StudentRecord -> StudentRecord) : M Session unit :=
  (rec <~ record_at idx ;;
   v <~ optional_text (getf rec) ;;
   assign idx (setf v))%method.

Definition update_score (idx : nat) (getf : StudentRecord -> Z)
    (setf : Z -> StudentRecord -> StudentRecord) : M Session unit :=
  (rec <~ record_at idx ;;
   v <~ optional_score (getf rec) ;;
   assign idx (setf v))%method.

Definition update_record : M Session unit :=
  (s <~ get ;;
   if bool_decide (records s = []) then ret tt
   else
     target <~ prompt_int_range 1 (10 ^ 9) ;;
     s <~ get ;;
     let idx := linear_search_by_id (records s) target in
     if idx =? -1 then ret tt
     else
       let i := Z.to_nat idx in
       update_text i gender set_gender ;;;
       update_text i race_ethnicity set_race_ethnicity ;;;
       update_text i parental_education set_parental_education ;;;
       update_text i lunch set_lunch ;;;
       update_text i prep_course set_prep_course ;;;
       update_score i math_score set_math_score ;;;
       update_score i reading_score set_reading_score ;;;
       update_score i writing_score set_writing_score)%method.

Definition delete_record : M Session unit :=
  (s <~ get ;;
   if bool_decide (records s = []) then ret tt
   else
     target <~ prompt_int_range 1 (10 ^ 9) ;;
     s <~ get ;;
     let idx := linear_search_by_id (records s) target in
     if idx =? -1 then ret tt
     else
       confirm <~ prompt_yes_no ;;
       if confirm
       then modify (fun s => set_records (delete (Z.to_nat idx) (records s)) s)
       else ret tt)%method.

End Students.

(** ** Lifetimes of a store: runs of add and delete *)

Module Lifetime.
Import Library.

Inductive op : Type :=
  | Add (title author category status : string)
  | Delete (bid : Z).

(** The store after one operation; an operation that raises leaves the
    store as [add_book] and [delete_book] leave it. *)
Definition step (o : op) (s : LibrarySystem) : LibrarySystem :=
  match o with
  | Add t a c st => snd (add_book t a c st s)
  | Delete b => snd (delete_book b s)
  end.

Definition run (ops : list op) (s : LibrarySystem) : LibrarySystem :=
  fold_left (fun s o => step o s) ops s.

Definition ids (s : LibrarySystem) : list Z := bid <$> _books s.

(** Every id that was in the store at some point of the run. *)
Fixpoint seen_ids (ops : list op) (s : LibrarySystem) : list Z :=
  ids s ++
  match ops with
  | [] => []
  | o :: ops' => seen_ids ops' (step o s)
  end.

End Lifetime.

(** ** Renumbering, in the words of the specification *)

Module Renumber.
Import Students.

Definition with_id (i : Z) (r : StudentRecord) : StudentRecord :=
  mkStudentRecord i (gender r) (race_ethnicity r) (parental_education r) (lunch r)
    (prep_course r) (math_score r) (reading_score r) (writing_score r).

(** Ids [k], [k + 1], ... in list order, every other field kept. *)
Fixpoint renumber_from (k : Z) (rs : list StudentRecord) : list StudentRecord :=
  match rs with
  | [] => []
  | r :: rs' => with_id k r :: renumber_from (k + 1) rs'
  end.

Definition renumber (rs : list StudentRecord) : list StudentRecord := renumber_from 1 rs.

(** The ids [k], [k + 1], ..., [k + n - 1]. *)
Fixpoint ids_from (k : Z) (n : nat) : list Z :=
  match n with
  | O => []
  | S n' => k :: ids_from (k + 1) n'
  end.

(** A note about one skipped row, as opposed to one about the whole file. *)
Definition is_skip (n : load_note) : Prop := exists i, n = SkippedRow i.

End Renumber.


(** ** Invariants of the stores *)

Module Invariants.


Fixpoint no_space (s : string) : Prop :=
  match s with
  | EmptyString => True
  | String c s' => is_space c = false /\ no_space s'
  end.

(** A string that does not begin with a space. *)
Definition starts_clear (s : string) : Prop :=
  match s with
  | EmptyString => True
  | String c _ => is_space c = false
  end.

(** A word, as [split] yields them. *)
Definition word (w : string) : Prop := w <> EmptyString /\ no_space w.

(** A text field of a student Record: trimmed and not empty. *)
Definition trimmed (s : string) : Prop := strip s = s /\ s <> EmptyString.

Definition in_bound (n : Z) : Prop := 0 <= n <= 100.

Definition valid_record (r : Students.StudentRecord) : Prop :=
  trimmed (Students.gender r) /\ trimmed (Students.race_ethnicity r) /\
  trimmed (Students.parental_education r) /\ trimmed (Students.lunch r) /\
  trimmed (Students.prep_course r) /\
  in_bound (Students.math_score r) /\ in_bound (Students.reading_score r) /\
  in_bound (Students.writing_score r).


(** A text field of a Book: in cleaned form and not empty. *)
Definition cleaned (s : string) : Prop := Library._clean_text s = s /\ s <> EmptyString.

Definition valid_book (b : Library.Book) : Prop :=
  0 <= Library.bid b /\ cleaned (Library.title b) /\ cleaned (Library.author b) /\
  cleaned (Library.category b) /\ Library.status b ∈ ["issued"; "available"].

(** The invariant of the catalog: every Book as [load_from_csv], [add_book]
    and [update_book] make them. *)
Definition valid_catalog (s : Library.LibrarySystem) : Prop :=
  Forall valid_book (Library._books s).

(** A method keeps the invariant [P] of the state, also when it raises, and
    what it returns satisfies [Q]. *)
Definition preserves {S A} (P : S -> Prop) (Q : A -> Prop) (c : M S A) : Prop :=
  forall s, P s -> P (snd (c s)) /\ forall a, fst (c s) = Return a -> Q a.


(** A method that only removes Records, keeping the order of the rest. *)
Definition shrinks {A} (c : M Students.Session A) : Prop :=
  forall s, Students.records (snd (c s)) `sublist_of` Students.records s.

End Invariants.

(** ** The statistics, in the words of the specification *)

Module StatsSpec.




End StatsSpec.

(** ** The per-field update policy, in the words of the specification *)

Module FieldPolicy.




End FieldPolicy.

(** ** Pre- and postconditions of methods *)

(** From a state satisfying [P], the method either returns a value and a
    state related by [Q], or raises an exception and leaves a state related
    by [E]. *)
Definition hoare {S A} (P : S -> Prop) (c : M S A)
    (Q : A -> S -> Prop) (E : exn -> S -> Prop) : Prop :=
  forall s, P s ->
    match c s with
    | (Return a, s') => Q a s'
    | (Raise e, s') => E e s'
    end.

(** ** Final_Project.py: analysis, prompts and the menu *)

Module LibraryMenu.
Import Library.

(** [counts[k] = counts.get(k, 0) + 1] on a dict, kept as the list of its
    items in insertion order: a known key is updated in place, a new key is
    appended. *)
Fixpoint bump (k : string) (counts : list (string * Z)) : list (string * Z) :=
  match counts with
  | [] => [(k, 0 + 1)]
  | (k', n) :: rest =>
      if String.eqb k' k then (k', n + 1) :: rest else (k', n) :: bump k rest
  end.

(** [for b in books: counts[f(b)] = counts.get(f(b), 0) + 1] *)
Definition count_by (f : Book -> string) (books : list Book) : list (string * Z) :=
  fold_left (fun counts b => bump (f b) counts) books [].

(** [sorted(counts.items(), key=lambda x: x[1], reverse=True)[:3]] *)
Definition top3 (counts : list (string * Z)) : list (string * Z) :=
  take 3 (py_sorted counts snd true).

(** The loop over [status_counts = {"issued": 0, "available": 0}]: the pair
    of the two counters. *)
Definition status_counts (books : list Book) : Z * Z :=
  fold_left (fun '(i, a) b =>
               if String.eqb (status b) "issued" then (i + 1, a)
               else if String.eqb (status b) "available" then (i, a + 1)
               else (i, a))
            books (0, 0).

(** The figures [analysis_summary] prints. *)
Record analysis : Type := mkAnalysis {
  total : nat;
  issued_count : Z;
  available_count : Z;
  min_id : Z;
  max_id : Z;
  top_categories : list (string * Z);
  top_authors : list (string * Z)
}.

(** [analysis_summary]; [None] is the guarded "No records loaded." return. *)
Definition analysis_summary (s : LibrarySystem) : result (option analysis) :=
  match _books s with
  | [] => Return None
  | _ =>
      let books := _books s in
      let '(i, a) := status_counts books in
      let top_categories := top3 (count_by category books) in
      let top_authors := top3 (count_by author books) in
      result_bind (py_min (bid <$> books)) (fun lo =>
      result_bind (py_max (bid <$> books)) (fun hi =>
      Return (Some (mkAnalysis (length books) i a lo hi top_categories top_authors))))
  end.

(** What the menu prints, by kind; the wording and layout are left out, and
    so are the prompts and the messages of a re-prompt. *)
Inductive event : Type :=
  | Loaded (n : nat) (path : string)
  | Error (e : exn)
  | NoRecords
  | Shown (books : list Book)
  | Found (b : Book)
  | NoMatch
  | InvalidChoice
  | SortedByTitle
  | SortedById
  | Analysed (a : analysis)
  | Added (b : Book)
  | Updated
  | Deleted
  | Saved (n : nat) (path : string)
  | Goodbye
  | InvalidOption.

(** The running program: the catalog, the lines still to be typed, the
    files by path, and what has been printed so far. *)
Record Console : Type := mkConsole {
  system : LibrarySystem;
  stdin : list string;
  files : gmap string Csv.file;
  printed : list event
}.

Definition set_system (s : LibrarySystem) (k : Console) : Console :=
  {| system := s; stdin := stdin k; files := files k; printed := printed k |}.
Definition set_stdin (lines : list string) (k : Console) : Console :=
  {| system := system k; stdin := lines; files := files k; printed := printed k |}.
Definition set_files (fs : gmap string Csv.file) (k : Console) : Console :=
  {| system := system k; stdin := stdin k; files := fs; printed := printed k |}.

(** [print(...)] *)
Definition print (ev : event) : M Console unit :=
  modify (fun k => {| system := system k; stdin := stdin k; files := files k;
                      printed := printed k ++ [ev] |}).

(** [input(prompt)] *)
Definition input : M Console string :=
  fun k => match stdin k with
           | [] => (Raise EOFError, k)
           | line :: rest => (Return line, set_stdin rest k)
           end.

(** A method of the catalog, called from the menu. *)
Definition call {A} (c : M LibrarySystem A) : M Console A :=
  fun k => let '(r, s') := c (system k) in (r, set_system s' k).

(** [prompt_int]: lines are read until one is all digits. *)
Fixpoint prompt_int_loop (lines : list string) : result Z * list string :=
  match lines with
  | [] => (Raise EOFError, [])
  | line :: rest =>
      let raw := strip line in
      if isdigit raw
      then match py_int raw with
           | Some n => (Return n, rest)
           | None => (Raise (ValueError "invalid literal for int()"), rest)
           end
      else prompt_int_loop rest
  end.

Definition prompt_int : M Console Z :=
  fun k => let '(r, rest) := prompt_int_loop (stdin k) in (r, set_stdin rest k).

Definition prompting {A} (accept : string -> option A) : M Console A :=
  fun k => let '(r, rest) := Students.prompt_loop accept (stdin k) in (r, set_stdin rest k).

Definition accept_nonempty (line : string) : option string :=
  let s2 := join " " (split (strip line)) in
  if String.eqb s2 "" then None else Some s2.

Definition prompt_nonempty : M Console string := prompting accept_nonempty.

Definition accept_status (line : string) : option string :=
  let s := lower (strip line) in
  let s := join " " (split s) in
  if bool_decide (s ∈ ["issued"; "available"]) then Some s else None.

Definition prompt_status : M Console string := prompting accept_status.

(** [try: body  except Exception as e: print(ERROR: e)] *)
Definition try_except (body : M Console unit) : M Console unit :=
  fun k => match body k with
           | (Return tt, k') => (Return tt, k')
           | (Raise e, k') => print (Error e) k'
           end.

(** [display_all] *)
Definition display_all : M Console unit :=
  (k <~ get ;;
   match _books (system k) with
   | [] => print NoRecords
   | books => print (Shown books)
   end)%method.

(** The file name typed, or the default when it is blank. *)
Definition filename_or (default : string) : M Console string :=
  (line <~ input ;;
   let filepath := strip line in
   ret (if String.eqb filepath "" then default else filepath))%method.

Definition option_1 : M Console unit :=
  (filepath <~ filename_or "Books_data - Sheet1.csv" ;;
   try_except
     (k <~ get ;;
      call (load_from_csv (fun p => files k !! p) filepath) ;;;
      k <~ get ;;
      print (Loaded (length (_books (system k))) filepath)))%method.

Definition option_3 : M Console unit :=
  (k <~ get ;;
   match _books (system k) with
   | [] => print NoRecords
   | _ =>
       line <~ input ;;
       let sub := strip line in
       if String.eqb sub "1" then
         bid <~ prompt_int ;;
         k <~ get ;;
         match _find_by_id_linear (system k) bid with
         | Some found => print (Found found)
         | None => print NoMatch
         end
       else if String.eqb sub "2" then
         t <~ prompt_nonempty ;;
         k <~ get ;;
         match _find_all_by_title_linear (system k) t with
         | [] => print NoMatch
         | matches => fold_right (fun b rest => print (Found b) ;;; rest) (ret tt) matches
         end
       else print InvalidChoice
   end)%method.

Definition option_4 : M Console unit :=
  (k <~ get ;;
   match _books (system k) with
   | [] => print NoRecords
   | _ =>
       line <~ input ;;
       let sub := strip line in
       if String.eqb sub "1" then call insertion_sort_by_title ;;; print SortedByTitle
       else if String.eqb sub "2" then call sort_by_id_builtin ;;; print SortedById
       else print InvalidChoice
   end)%method.

Definition option_5 : M Console unit :=
  (k <~ get ;;
   match analysis_summary (system k) with
   | Return None => print NoRecords
   | Return (Some a) => print (Analysed a)
   | Raise e => raise e
   end)%method.

Definition option_6 : M Console unit :=
  try_except
    (title <~ prompt_nonempty ;;
     author <~ prompt_nonempty ;;
     category <~ prompt_nonempty ;;
     status <~ prompt_status ;;
     new_book <~ call (add_book title author category status) ;;
     print (Added new_book))%method.

Definition option_7 : M Console unit :=
  (k <~ get ;;
   match _books (system k) with
   | [] => print NoRecords
   | _ =>
       try_except
         (bid <~ prompt_int ;;
          k <~ get ;;
          match _find_by_id_linear (system k) bid with
          | None => print NoMatch
          | Some _ =>
              title <~ prompt_nonempty ;;
              author <~ prompt_nonempty ;;
              category <~ prompt_nonempty ;;
              status <~ prompt_status ;;
              call (update_book bid title author category status) ;;;
              print Updated
          end)
   end)%method.

Definition option_8 : M Console unit :=
  (k <~ get ;;
   match _books (system k) with
   | [] => print NoRecords
   | _ =>
       try_except
         (bid <~ prompt_int ;;
          call (delete_book bid) ;;;
          print Deleted)
   end)%method.

(** [system.save_to_csv(filepath)], the file written. *)
Definition save_file (filepath : string) : M Console unit :=
  (rows <~ call (save_to_csv filepath) ;;
   modify (fun k => set_files (<[filepath := rows]> (files k)) k))%method.

Definition option_9 : M Console unit :=
  (k <~ get ;;
   match _books (system k) with
   | [] => print NoRecords
   | _ =>
       filepath <~ filename_or "library_output.csv" ;;
       try_except
         (save_file filepath ;;;
          k <~ get ;;
          print (Saved (length (_books (system k))) filepath))
   end)%method.

(** One turn of the [while True] loop of [main]: [true] to go on, [false]
    after option 10. *)
Definition turn : M Console bool :=
  (line <~ input ;;
   let choice := strip line in
   if String.eqb choice "1" then option_1 ;;; ret true
   else if String.eqb choice "2" then display_all ;;; ret true
   else if String.eqb choice "3" then option_3 ;;; ret true
   else if String.eqb choice "4" then option_4 ;;; ret true
   else if String.eqb choice "5" then option_5 ;;; ret true
   else if String.eqb choice "6" then option_6 ;;; ret true
   else if String.eqb choice "7" then option_7 ;;; ret true
   else if String.eqb choice "8" then option_8 ;;; ret true
   else if String.eqb choice "9" then option_9 ;;; ret true
   else if String.eqb choice "10" then print Goodbye ;;; ret false
   else print InvalidOption ;;; ret true)%method.

(** [main], from a running program on: at most [fuel] turns; [None] when
    they do not suffice. *)
Fixpoint main_loop (fuel : nat) (k : Console) : option (result unit * Console) :=
  match fuel with
  | O => None
  | S fuel' =>
      match turn k with
      | (Return true, k') => main_loop fuel' k'
      | (Return false, k') => Some (Return tt, k')
      | (Raise e, k') => Some (Raise e, k')
      end
  end.

(** [main()]: a fresh catalog, nothing printed. *)
Definition main (fuel : nat) (lines : list string) (fs : gmap string Csv.file)
    : option (result unit * Console) :=
  main_loop fuel {| system := init; stdin := lines; files := fs; printed := [] |}.

(** *** Unit 3 Lesson 3 A *)







End LibraryMenu.

(** ** AOL_Unit2.py: display, search and the menu *)

Module StudentsMenu.
Import Students.

(** [prompt_menu_choice]: lines are read until one is all digits and reads
    as a number from 1 to 10. *)
Fixpoint prompt_menu_choice_loop (lines : list string) : result Z * list string :=
  match lines with
  | [] => (Raise EOFError, [])
  | line :: rest =>
      let raw := strip line in
      if isdigit raw
      then match py_int raw with
           | Some n =>
               if (1 <=? n) && (n <=? 10) then (Return n, rest)
               else prompt_menu_choice_loop rest
           | None => (Raise (ValueError "invalid literal for int()"), rest)
           end
      else prompt_menu_choice_loop rest
  end.

Definition prompt_menu_choice : M Session Z :=
  fun s => let '(r, rest) := prompt_menu_choice_loop (stdin s) in (r, set_stdin rest s).

(** [display_records]: the number of Records the filter keeps and the
    Records printed, the first 200 of them; [None] is the guarded
    "No data loaded." return. *)
Definition display_records : M Session (option (nat * list StudentRecord)) :=
  (s <~ get ;;
   if bool_decide (records s = []) then ret None
   else
     choice <~ prompt_int_range 1 4 ;;
     filtered <~
       (if choice =? 2 then
          g <~ prompt_nonempty ;;
          s <~ get ;;
          ret (filter (fun x => lower (gender x) = lower g) (records s))
        else if choice =? 3 then
          l <~ prompt_nonempty ;;
          s <~ get ;;
          ret (filter (fun x => lower (lunch x) = lower l) (records s))
        else if choice =? 4 then
          p <~ prompt_nonempty ;;
          s <~ get ;;
          ret (filter (fun x => lower (prep_course x) = lower p) (records s))
        else
          s <~ get ;;
          ret (records s)) ;;
     ret (Some (length filtered, take 200 filtered)))%method.

(** [search_record]: the Record printed, [None] for "Record not found.";
    the outer [None] is the guarded "No data loaded." return. *)
Definition search_record : M Session (option (option StudentRecord)) :=
  (s <~ get ;;
   if bool_decide (records s = []) then ret None
   else
     target <~ prompt_int_range 1 (10 ^ 9) ;;
     s <~ get ;;
     let idx := linear_search_by_id (records s) target in
     if idx =? -1 then ret (Some None)
     else match records s !! Z.to_nat idx with
          | Some r => ret (Some (Some r))
          | None => raise IndexError
          end)%method.

(** The running program: the list [records] of [main] with the lines still
    to be typed, and the files by path (a path is the string typed). *)
Record Terminal : Type := mkTerminal {
  session : Session;
  files : gmap string Csv.file
}.

Definition set_session (s : Session) (t : Terminal) : Terminal :=
  {| session := s; files := files t |}.
Definition set_files (fs : gmap string Csv.file) (t : Terminal) : Terminal :=
  {| session := session t; files := fs |}.

(** A function of the program, called from the menu. *)
Definition call {A} (c : M Session A) : M Terminal A :=
  fun t => let '(r, s') := c (session t) in (r, set_session s' t).

(** The path typed, or the default when it is blank. *)
Definition path_or (default : string) : M Terminal string :=
  (line <~ call input ;;
   let path := strip line in
   ret (if truthy path then path else default))%method.

(** Choice 1: a load that returns no Record leaves [records] as it is. *)
Definition choice_1 (default_csv_path : string) : M Terminal unit :=
  (path <~ path_or default_csv_path ;;
   t <~ get ;;
   match snd (load_from_csv (fun p => files t !! p) path) with
   | [] => ret tt
   | loaded => call (modify (set_records loaded))
   end)%method.

(** Choice 9: nothing is written for an empty list. *)
Definition choice_9 : M Terminal unit :=
  (t <~ get ;;
   if bool_decide (records (session t) = []) then ret tt
   else
     out_path <~ path_or "students_performance_updated.csv" ;;
     modify (fun t => set_files (<[out_path := save_to_csv (records (session t))]> (files t)) t))%method.

(** Choice 10: [true] when the exit is cancelled. *)
Definition choice_10 : M Terminal bool :=
  (t <~ get ;;
   if bool_decide (records (session t) = []) then ret false
   else
     confirmed <~ call prompt_yes_no ;;
     ret (negb confirmed))%method.

(** One turn of the [while True] loop of [main]: [true] to go on. *)
Definition turn (default_csv_path : string) : M Terminal bool :=
  (choice <~ call prompt_menu_choice ;;
   if choice =? 1 then choice_1 default_csv_path ;;; ret true
   else if choice =? 2 then call display_records ;;; ret true
   else if choice =? 3 then call search_record ;;; ret true
   else if choice =? 4 then call sort_records ;;; ret true
   else if choice =? 5 then
     t <~ get ;;
     match summary_statistics (records (session t)) with
     | Return _ => ret true
     | Raise e => raise e
     end
   else if choice =? 6 then call add_record ;;; ret true
   else if choice =? 7 then call update_record ;;; ret true
   else if choice =? 8 then call delete_record ;;; ret true
   else if choice =? 9 then choice_9 ;;; ret true
   else choice_10)%method.

(** [main], from a running program on: at most [fuel] turns; [None] when
    they do not suffice. *)
Fixpoint main_loop (default_csv_path : string) (fuel : nat) (t : Terminal)
    : option (result unit * Terminal) :=
  match fuel with
  | O => None
  | S fuel' =>
      match turn default_csv_path t with
      | (Return true, t') => main_loop default_csv_path fuel' t'
      | (Return false, t') => Some (Return tt, t')
      | (Raise e, t') => Some (Raise e, t')
      end
  end.

(** [main()]: [records] starts empty. *)
Definition main (default_csv_path : string) (fuel : nat) (lines : list string)
    (fs : gmap string Csv.file) : option (result unit * Terminal) :=
  main_loop default_csv_path fuel
    {| session := {| records := []; stdin := lines |}; files := fs |}.

End StudentsMenu.

(** ** What the two menus keep *)

Module MenuSpec.



(** Since the state [k0], at least [j] lines have been typed and nothing
    else has changed. *)
Definition typed (k0 : LibraryMenu.Console) (j : nat) (k : LibraryMenu.Console) : Prop :=
  LibraryMenu.system k = LibraryMenu.system k0 /\
  LibraryMenu.files k = LibraryMenu.files k0 /\
  LibraryMenu.printed k = LibraryMenu.printed k0 /\
  exists used, LibraryMenu.stdin k0 = (used ++ LibraryMenu.stdin k)%list /\
               (j <= length used)%nat.

(** The input ended: nothing is left to read, and nothing else has changed
    since [k0]. *)
Definition ran_out (k0 : LibraryMenu.Console) (e : exn) (k : LibraryMenu.Console) : Prop :=
  e = EOFError /\
  LibraryMenu.system k = LibraryMenu.system k0 /\
  LibraryMenu.files k = LibraryMenu.files k0 /\
  LibraryMenu.printed k = LibraryMenu.printed k0 /\
  LibraryMenu.stdin k = [].



(** Since the state [s0] lines have been read and nothing else has changed. *)
Definition read_on (s0 s : Students.Session) : Prop :=
  Students.records s = Students.records s0 /\
  exists used, Students.stdin s0 = (used ++ Students.stdin s)%list.

(** The input ended after [s0], the Records as they were. *)
Definition read_out (s0 : Students.Session) (e : exn) (s : Students.Session) : Prop :=
  e = EOFError /\ Students.records s = Students.records s0 /\ Students.stdin s = [].

(** The first Record of [rs] whose id is [target], at index [i]. *)
Definition first_with_id (rs : list Students.StudentRecord) (target : Z) (i : nat)
    (r : Students.StudentRecord) : Prop :=
  rs !! i = Some r /\ Students.student_id r = target /\
  forall (j : nat) r', (j < i)%nat -> rs !! j = Some r' -> Students.student_id r' <> target.




End MenuSpec.

(** ** Stability, in the words of a sort's contract *)

Module SortSpec.

(** Neither key is less than the other. *)
Definition same_key {K} `{PyOrd K} (a b : K) : bool :=
  negb (py_lt a b) && negb (py_lt b a).

(** The elements of a list whose key is [k], in list order. *)
Definition keyed {A K} `{PyOrd K} (key_fn : A -> K) (k : K) (l : list A) : list A :=
  filter (fun x => same_key (key_fn x) k = true) l.

(** [l'] holds the elements of [l], those of equal key in their order in [l]. *)
Definition stable {A K} `{PyOrd K} (key_fn : A -> K) (l l' : list A) : Prop :=
  forall k, keyed key_fn k l' = keyed key_fn k l.

End SortSpec.

(** ** Text made of white space only *)

Module TextSpec.


End TextSpec.

(** ** Frequency tables, in plain terms *)

Module TallySpec.

(** [counts.get(k, 0)] *)
Fixpoint count_of (k : string) (counts : list (string * Z)) : Z :=
  match counts with
  | [] => 0
  | (k', n) :: rest => if String.eqb k' k then n else count_of k rest
  end.

(** How many Books have the value [k] in the field [f]. *)
Definition occurrences (f : Library.Book -> string) (k : string)
    (books : list Library.Book) : Z :=
  Z.of_nat (length (filter (fun b => f b = k) books)).

Definition sum_counts (counts : list (string * Z)) : Z :=
  fold_right Z.add 0 (snd <$> counts).

(** [top] lists up to three distinct values of the field [f] with their exact
    numbers of Books, largest number first, and no value left out has more
    Books than a listed one. *)
Definition most_frequent (f : Library.Book -> string) (books : list Library.Book)
    (top : list (string * Z)) : Prop :=
  (length top <= 3)%nat /\
  NoDup (fst <$> top) /\
  (forall k n, (k, n) ∈ top -> n = occurrences f k books /\ 0 < n) /\
  Sorted (fun p q => snd q <= snd p) top /\
  (forall k p, k ∉ fst <$> top -> p ∈ top -> occurrences f k books <= snd p) /\
  (forall k, 0 < occurrences f k books -> (length top < 3)%nat -> k ∈ fst <$> top).

End TallySpec.

(** ** What a load keeps of a file *)

Module LoadSpec.


End LoadSpec.

(** * Properties *)

Open Scope list_scope.


(** ** Search *)

Section Search.
Import Library Students.

Lemma find_in_Some bs x b :
  find_in bs x = Some b <->
  exists i : nat, bs !! i = Some b /\ bid b = x /\
    forall (j : nat) b', (j < i)%nat -> bs !! j = Some b' -> bid b' <> x.
Proof.
  induction bs as [|b0 bs IH]; simpl.
  - split; [discriminate|]. intros (i & Hi & _). by rewrite lookup_nil in Hi.
  - destruct (Z.eqb_spec (bid b0) x) as [Heq|Hne].
    + split.
      * intros [= <-]. exists 0%nat. repeat split; auto. intros j b' Hj. lia.
      * intros (i & Hi & Hb & Hfirst). destruct i as [|i]; simpl in Hi; [congruence|].
        exfalso. apply (Hfirst 0%nat b0); [lia|done|done].
    + rewrite IH. split.
      * intros (i & Hi & Hb & Hfirst). exists (S i). repeat split; auto.
        intros [|j] b' Hj Hl; simpl in Hl.
        -- congruence.
        -- apply (Hfirst j); [lia|done].
      * intros (i & Hi & Hb & Hfirst). destruct i as [|i]; simpl in Hi.
        -- congruence.
        -- exists i. repeat split; auto. intros j b' Hj Hl.
           apply (Hfirst (S j)); [lia|done].
Qed.

Lemma find_in_None bs x :
  find_in bs x = None <-> forall b, b ∈ bs -> bid b <> x.
Proof.
  induction bs as [|b0 bs IH]; simpl.
  - split; [|done]. intros _ b Hb. by apply elem_of_nil in Hb.
  - destruct (Z.eqb_spec (bid b0) x) as [Heq|Hne].
    + split; [discriminate|]. intros Hall. exfalso. apply (Hall b0); [left|done].
    + rewrite IH. split.
      * intros Hall b Hb. apply elem_of_cons in Hb as [->|Hb]; auto.
      * intros Hall b Hb. apply Hall. by right.
Qed.

Lemma linear_search_from_range rs k x :
  linear_search_from rs k x = -1 \/ k <= linear_search_from rs k x.
Proof.
  revert k. induction rs as [|r rs IH]; intros k; simpl; [by left|].
  destruct (student_id r =? x); [right; lia|].
  destruct (IH (k + 1)); [by left|right; lia].
Qed.

Lemma linear_search_from_found rs k x (i : nat) :
  0 <= k ->
  linear_search_from rs k x = k + Z.of_nat i <->
  exists r, rs !! i = Some r /\ student_id r = x /\
    forall (j : nat) r', (j < i)%nat -> rs !! j = Some r' -> student_id r' <> x.
Proof.
  revert k i. induction rs as [|r0 rs IH]; intros k i Hk; simpl.
  - split; [lia|]. intros (r & Hr & _). by rewrite lookup_nil in Hr.
  - destruct (Z.eqb_spec (student_id r0) x) as [Heq|Hne].
    + split.
      * intros Hi. assert (i = 0%nat) as -> by lia. exists r0.
        repeat split; auto. intros j r' Hj. lia.
      * intros (r & Hr & Hx & Hfirst). destruct i as [|i]; [lia|].
        exfalso. apply (Hfirst 0%nat r0); [lia|done|done].
    + destruct i as [|i].
      * split.
        -- intros Hi. destruct (linear_search_from_range rs (k + 1) x); lia.
        -- intros (r & Hr & Hx & _). simpl in Hr. congruence.
      * replace (k + Z.of_nat (S i)) with ((k + 1) + Z.of_nat i) by lia.
        rewrite IH by lia. split.
        -- intros (r & Hr & Hx & Hfirst). exists r. repeat split; auto.
           intros [|j] r' Hj Hl; simpl in Hl; [congruence|].
           apply (Hfirst j); [lia|done].
        -- intros (r & Hr & Hx & Hfirst). exists r. repeat split; auto.
           intros j r' Hj Hl. apply (Hfirst (S j)); [lia|done].
Qed.

Lemma linear_search_from_missing rs k x :
  0 <= k ->
  linear_search_from rs k x = -1 <-> forall r, r ∈ rs -> student_id r <> x.
Proof.
  revert k. induction rs as [|r0 rs IH]; intros k Hk; simpl.
  - split; [|done]. intros _ r Hr. by apply elem_of_nil in Hr.
  - destruct (Z.eqb_spec (student_id r0) x) as [Heq|Hne].
    + split; [lia|]. intros Hall. exfalso. apply (Hall r0); [left|done].
    + rewrite IH by lia. split.
      * intros Hall r Hr. apply elem_of_cons in Hr as [->|Hr]; auto.
      * intros Hall r Hr. apply Hall. by right.
Qed.

(** C9. [find_by_id] scans from first to last and returns the first Record
    whose id is the one sought, exactly when the Store has such a Record,
    and the not-found result ([None], or the index [-1]) exactly when it
    has none. Both searches are functions of the Store: they return a
    result and no Store, so the Store they read is the Store afterwards. *)
Theorem find_by_id_first_match :
  (forall (s : LibrarySystem) (x : Z),
     (forall b, _find_by_id_linear s x = Some b <->
        exists i : nat, _books s !! i = Some b /\ bid b = x /\
          forall (j : nat) b', (j < i)%nat -> _books s !! j = Some b' -> bid b' <> x)
     /\ (_find_by_id_linear s x = None <-> forall b, b ∈ _books s -> bid b <> x)
     /\ (is_Some (_find_by_id_linear s x) <-> exists b, b ∈ _books s /\ bid b = x))
  /\
  (forall (rs : list StudentRecord) (x : Z),
     (forall i : nat, linear_search_by_id rs x = Z.of_nat i <->
        exists r, rs !! i = Some r /\ student_id r = x /\
          forall (j : nat) r', (j < i)%nat -> rs !! j = Some r' -> student_id r' <> x)
     /\ (linear_search_by_id rs x = -1 <-> forall r, r ∈ rs -> student_id r <> x)
     /\ (linear_search_by_id rs x <> -1 <-> exists r, r ∈ rs /\ student_id r = x)).
Proof.
  split.
  - intros s x. unfold _find_by_id_linear. split; [|split].
    + intros b. apply find_in_Some.
    + apply find_in_None.
    + split.
      * intros [b Hb]. exists b. apply find_in_Some in Hb as (i & Hi & Hx & _).
        split; [|done]. apply list_elem_of_lookup. eauto.
      * intros (b & Hb & Hx). destruct (find_in (_books s) x) eqn:E; [eauto|].
        exfalso. eapply find_in_None; eauto.
  - intros rs x. unfold linear_search_by_id. split; [|split].
    + intros i. apply (linear_search_from_found rs 0 x i). lia.
    + apply linear_search_from_missing. lia.
    + rewrite linear_search_from_missing by lia. split.
      * intros Hn. destruct (decide (Exists (fun r => student_id r = x) rs)) as [He|He].
        -- apply Exists_exists in He as (r & Hr & Hx). eauto.
        -- exfalso. apply Hn. intros r Hr Hx. apply He. apply Exists_exists. eauto.
      * intros (r & Hr & Hx) Hall. by apply (Hall r).
Qed.
End Search.

(** ** Validation on add and update in the library catalog *)

Section LibraryValidation.
Import Library.


Lemma eqb_empty_false (s : string) : s <> "" -> String.eqb s "" = false.
Proof. intros Hs. by apply String.eqb_neq. Qed.

Lemma texts_ok (t a c : string) :
  t <> "" -> a <> "" -> c <> "" ->
  String.eqb t "" || String.eqb a "" || String.eqb c "" = false.
Proof. intros. by rewrite !eqb_empty_false. Qed.


Lemma add_book_accepts s t a c st :
  _clean_text t <> "" -> _clean_text a <> "" -> _clean_text c <> "" ->
  _is_valid_status (_normalize_status st) = true ->
  let nb := mkBook (_next_id s) (_clean_text t) (_clean_text a) (_clean_text c)
                   (_normalize_status st) in
  add_book t a c st s = (Return nb, set_books (_books s ++ [nb]) s).
Proof.
  intros Ht Ha Hc Hst nb. unfold add_book.
  rewrite texts_ok by done. rewrite Hst. reflexivity.
Qed.




Lemma update_book_missing s x t a c st :
  _find_by_id_linear s x = None ->
  exists msg, update_book x t a c st s = (Raise (LookupError msg), s).
Proof. intros Hb. unfold update_book, bind, get. rewrite Hb. eauto. Qed.




End LibraryValidation.

Section LibraryWitnesses.
Import Library.


Lemma find_by_id_first_match_witness :
  let s := {| _books := [mkBook 4 "Dune" "Herbert" "SF" "issued";
                         mkBook 7 "Emma" "Austen" "Novel" "available";
                         mkBook 7 "Emma II" "Austen" "Novel" "issued"];
              _loaded_file := None |} in
  _find_by_id_linear s 7 = Some (mkBook 7 "Emma" "Austen" "Novel" "available") /\
  _find_by_id_linear s 1 = None.
Proof.
  intros s. destruct (proj1 find_by_id_first_match s 7) as (Hfound & _).
  destruct (proj1 find_by_id_first_match s 1) as (_ & Hmissing & _).
  split.
  - apply Hfound. exists 1%nat. split; [reflexivity|]. split; [reflexivity|].
    intros [|[|j]] b' Hj Hb'; [|lia|lia]. injection Hb' as <-. discriminate.
  - apply Hmissing. intros b Hb. unfold s in Hb. simpl in Hb. set_unfold.
    destruct Hb as [-> | [-> | [-> | []]]]; discriminate.
Defined.
End LibraryWitnesses.

(** ** Identifiers over the lifetime of a store *)

Section Identifiers.
Import Library Lifetime.

Lemma max_bid_bounds bs : forall m,
  m <= fold_left (fun m b' => if m <? bid b' then bid b' else m) bs m /\
  forall b, b ∈ bs -> bid b <= fold_left (fun m b' => if m <? bid b' then bid b' else m) bs m.
Proof.
  induction bs as [|b0 bs IH]; intros m; simpl.
  - split; [lia|]. intros b Hb. by apply elem_of_nil in Hb.
  - destruct (IH (if m <? bid b0 then bid b0 else m)) as [Hm Hall].
    split.
    + destruct (Z.ltb_spec m (bid b0)); lia.
    + intros b Hb. apply elem_of_cons in Hb as [-> | Hb]; [|by apply Hall].
      destruct (Z.ltb_spec m (bid b0)); lia.
Qed.

Lemma next_id_above_current s x : x ∈ ids s -> x < _next_id s.
Proof.
  unfold ids, _next_id. destruct (_books s) as [|b bs]; simpl.
  - intros Hx. by apply elem_of_nil in Hx.
  - intros Hx. unfold max_bid. destruct (max_bid_bounds bs (bid b)) as [Hm Hall].
    apply elem_of_cons in Hx as [-> | Hx]; [lia|].
    apply list_elem_of_fmap in Hx as (b' & -> & Hb'). specialize (Hall b' Hb'). lia.
Qed.

Lemma add_book_outcome s t a c st :
  (exists msg, add_book t a c st s = (Raise (ValueError msg), s)) \/
  (exists nb, bid nb = _next_id s /\
     add_book t a c st s = (Return nb, set_books (_books s ++ [nb]) s)).
Proof.
  unfold add_book.
  destruct (String.eqb (_clean_text t) "" || String.eqb (_clean_text a) ""
            || String.eqb (_clean_text c) ""); [left; eauto|].
  destruct (_is_valid_status (_normalize_status st)); simpl; [|left; eauto].
  right. eexists. split; [|reflexivity]. reflexivity.
Qed.

Lemma delete_first_sublist bs x bs' :
  delete_first bs x = Some bs' -> sublist bs' bs.
Proof.
  revert bs'. induction bs as [|b bs IH]; intros bs'; simpl; [discriminate|].
  destruct (bid b =? x).
  - intros [= <-]. by apply sublist_cons.
  - destruct (delete_first bs x) as [bs0|]; simpl; [|discriminate].
    intros [= <-]. apply sublist_skip. by apply IH.
Qed.

Lemma ids_distinct_after_add s nb :
  NoDup (ids s) -> bid nb = _next_id s ->
  NoDup (ids (set_books (_books s ++ [nb]) s)).
Proof.
  intros Hnd Hnb. unfold ids in *. simpl. rewrite fmap_app. simpl.
  apply NoDup_app. split; [done|]. split.
  - intros x Hx Hin. apply list_elem_of_singleton in Hin. subst x.
    apply (next_id_above_current s) in Hx. lia.
  - apply NoDup_singleton.
Qed.

Lemma step_keeps_ids_distinct o s : NoDup (ids s) -> NoDup (ids (step o s)).
Proof.
  intros Hnd. destruct o as [t a c st|x]; simpl.
  - destruct (add_book_outcome s t a c st) as [[msg ->]|(nb & Hnb & ->)]; simpl; [done|].
    by apply ids_distinct_after_add.
  - unfold delete_book, bind, get. simpl.
    destruct (delete_first (_books s) x) as [bs|] eqn:E; simpl; [|done].
    apply delete_first_sublist in E. unfold ids in *. simpl.
    eapply sublist_NoDup; [exact Hnd|]. by apply fmap_sublist.
Qed.

Lemma run_keeps_ids_distinct ops : forall s, NoDup (ids s) -> NoDup (ids (run ops s)).
Proof.
  unfold run. induction ops as [|o ops IH]; intros s Hnd; simpl; [done|].
  apply IH. by apply step_keeps_ids_distinct.
Qed.

End Identifiers.

Section StudentIdentifiers.
Import Students.

Lemma max_id_bounds rs : forall m,
  m <= fold_left (fun m r' => if m <? student_id r' then student_id r' else m) rs m /\
  forall r, r ∈ rs ->
    student_id r <= fold_left (fun m r' => if m <? student_id r' then student_id r' else m) rs m.
Proof.
  induction rs as [|r0 rs IH]; intros m; simpl.
  - split; [lia|]. intros r Hr. by apply elem_of_nil in Hr.
  - destruct (IH (if m <? student_id r0 then student_id r0 else m)) as [Hm Hall].
    split.
    + destruct (Z.ltb_spec m (student_id r0)); lia.
    + intros r Hr. apply elem_of_cons in Hr as [-> | Hr]; [|by apply Hall].
      destruct (Z.ltb_spec m (student_id r0)); lia.
Qed.

Lemma next_available_id_above rs x :
  x ∈ student_id <$> rs -> x < next_available_id rs.
Proof.
  unfold next_available_id. destruct rs as [|r rs]; simpl.
  - intros Hx. by apply elem_of_nil in Hx.
  - intros Hx. unfold max_id. destruct (max_id_bounds rs (student_id r)) as [Hm Hall].
    apply elem_of_cons in Hx as [-> | Hx]; [lia|].
    apply list_elem_of_fmap in Hx as (r' & -> & Hr'). specialize (Hall r' Hr'). lia.
Qed.

Ltac prompt_step :=
  match goal with
  | |- context [prompt_loop ?accept ?lines] =>
      destruct (prompt_loop accept lines) as [[?|?] ?]; simpl; [|right; eauto]
  end.

Lemma add_record_outcome s :
  (exists r s', add_record s = (Return tt, s') /\ records s' = records s ++ [r] /\
                student_id r = next_available_id (records s)) \/
  (exists e s', add_record s = (Raise e, s') /\ records s' = records s).
Proof.
  unfold add_record, bind, get, prompt_nonempty, prompt_int_range, prompting. simpl.
  do 8 prompt_step.
  left. unfold modify. simpl. eexists _, _. split; [reflexivity|]. split; reflexivity.
Qed.

Lemma shrinks_bind {A B} (c : M Session A) (k : A -> M Session B) :
  Invariants.shrinks c -> (forall a, Invariants.shrinks (k a)) -> Invariants.shrinks (bind c k).
Proof.
  intros Hc Hk s. unfold bind. specialize (Hc s).
  destruct (c s) as [[a|e] s1]; simpl in *; [|done].
  by rewrite (Hk a s1).
Qed.

Lemma shrinks_ret {A} (a : A) : Invariants.shrinks (ret a : M Session A).
Proof. by intros s. Qed.

Lemma shrinks_prompting {A} (accept : string -> option A) :
  Invariants.shrinks (prompting accept).
Proof. intros s. unfold prompting. by destruct (prompt_loop accept (stdin s)). Qed.

Lemma delete_record_shrinks : Invariants.shrinks delete_record.
Proof.
  unfold delete_record.
  apply shrinks_bind; [by intros s|]. intros s0.
  destruct (bool_decide (records s0 = [])); [apply shrinks_ret|].
  apply shrinks_bind; [apply shrinks_prompting|]. intros target.
  apply shrinks_bind; [by intros s|]. intros s1.
  destruct (linear_search_by_id (records s1) target =? -1); [apply shrinks_ret|].
  apply shrinks_bind; [apply shrinks_prompting|]. intros [|]; [|apply shrinks_ret].
  intros s. simpl. apply sublist_delete.
Qed.

Lemma student_ids_distinct_after_add rs r :
  NoDup (student_id <$> rs) -> student_id r = next_available_id rs ->
  NoDup (student_id <$> rs ++ [r]).
Proof.
  intros Hnd Hr. rewrite fmap_app. simpl.
  apply NoDup_app. split; [done|]. split.
  - intros x Hx Hin. apply list_elem_of_singleton in Hin. subst x.
    apply next_available_id_above in Hx. lia.
  - apply NoDup_singleton.
Qed.

Lemma student_steps_keep_ids_distinct s :
  NoDup (student_id <$> records s) ->
  NoDup (student_id <$> records (snd (add_record s))) /\
  NoDup (student_id <$> records (snd (delete_record s))).
Proof.
  intros Hnd. split.
  - destruct (add_record_outcome s) as [(r & s' & E & Hrec & Hr)|(e & s' & E & Hrec)];
      rewrite E; simpl; rewrite Hrec.
    + by apply student_ids_distinct_after_add.
    + done.
  - eapply sublist_NoDup; [exact Hnd|]. apply fmap_sublist, delete_record_shrinks.
Qed.
End StudentIdentifiers.

Section IdentifierClaims.
Import Library Lifetime.

(** C1, as the code has it. From a Store whose ids are pairwise distinct
    (the empty Store among them), every sequence of adds and deletes leaves
    the surviving ids pairwise distinct, and the id given to a newly added
    Record, the current maximum plus one or 1 on an empty Store, strictly
    exceeds every id in the Store at that moment. *)
Theorem ids_distinct_and_above_current :
  (forall (s : LibrarySystem) (ops : list op),
     NoDup (ids s) ->
     NoDup (ids (run ops s)) /\
     forall t a c st nb s',
       add_book t a c st (run ops s) = (Return nb, s') ->
       bid nb = _next_id (run ops s) /\
       (_books (run ops s) = [] -> bid nb = 1) /\
       (forall x, x ∈ ids (run ops s) -> x < bid nb) /\
       NoDup (ids s'))
  /\
  (forall s : Students.Session,
     NoDup (Students.student_id <$> Students.records s) ->
     NoDup (Students.student_id <$> Students.records (snd (Students.add_record s))) /\
     NoDup (Students.student_id <$> Students.records (snd (Students.delete_record s))) /\
     forall s', Students.add_record s = (Return tt, s') ->
       exists r,
         Students.records s' = Students.records s ++ [r] /\
         Students.student_id r = Students.next_available_id (Students.records s) /\
         (Students.records s = [] -> Students.student_id r = 1) /\
         forall x, x ∈ Students.student_id <$> Students.records s ->
                   x < Students.student_id r).
Proof.
  split; [|intros s Hnd; destruct (student_steps_keep_ids_distinct s Hnd) as [Ha Hd];
           split; [done|]; split; [done|]; intros s' Hadd;
           destruct (add_record_outcome s) as [(r & s1 & E & Hrec & Hr)|(e & s1 & E & _)];
           rewrite E in Hadd; [|discriminate]; injection Hadd as <-;
           exists r; split; [done|]; split; [done|]; split;
           [intros Hempty; rewrite Hr, Hempty; reflexivity
           |intros x Hx; rewrite Hr; by apply next_available_id_above]].
  intros s ops Hnd. pose proof (run_keeps_ids_distinct ops s Hnd) as Hrun.
  split; [done|]. intros t a c st nb s' Hadd.
  destruct (add_book_outcome (run ops s) t a c st) as [[msg E]|(nb' & Hnb & E)];
    rewrite E in Hadd; [discriminate|].
  injection Hadd as <- <-. split; [done|]. split; [|split].
  - intros Hempty. rewrite Hnb. unfold _next_id. by rewrite Hempty.
  - intros x Hx. rewrite Hnb. by apply next_id_above_current.
  - by apply ids_distinct_after_add.
Qed.

Lemma ids_distinct_and_above_current_witness :
  let ops := [Add "Dune" "Herbert" "SF" "issued"; Add "Emma" "Austen" "Novel" "in";
              Delete 1] in
  NoDup (ids (run ops init)) /\
  forall t a c st nb s',
    add_book t a c st (run ops init) = (Return nb, s') ->
    bid nb = _next_id (run ops init) /\
    (_books (run ops init) = [] -> bid nb = 1) /\
    (forall x, x ∈ ids (run ops init) -> x < bid nb) /\
    NoDup (ids s').
Proof.
  intros ops. apply (proj1 ids_distinct_and_above_current init ops). apply NoDup_nil_2.
Defined.

(** C1 as stated fails: after the Record holding the maximum id is deleted,
    the next add reuses that id. Two adds give ids 1 and 2; deleting 2 and
    adding again gives 2, an id the Store has already seen. *)
Lemma id_reused_after_deleting_the_maximum :
  let ops := [Add "Dune" "Herbert" "SF" "issued"; Add "Emma" "Austen" "Novel" "in";
              Delete 2] in
  let nb := mkBook 2 "Ulysses" "Joyce" "Novel" "available" in
  2 ∈ seen_ids ops init /\
  fst (add_book "Ulysses" "Joyce" "Novel" "available" (run ops init)) = Return nb /\
  ~ (forall x, x ∈ seen_ids ops init -> x < bid nb).
Proof.
  intros ops nb. assert (H2 : 2 ∈ seen_ids ops init).
  { vm_compute. do 2 right. left. }
  split; [done|]. split; [reflexivity|].
  intros Hall. specialize (Hall 2 H2). simpl in Hall. lia.
Qed.
End IdentifierClaims.

(** ** Update *)

Section Update.
Import Library Students FieldPolicy.












End Update.

(** ** Loading *)

Section Loading.
Import Students Renumber.

Lemma load_row_with_id sid row :
  load_row sid row = with_id sid <$> load_row 0 row.
Proof.
  unfold load_row.
  destruct (py_int (strip (Csv.get_or_empty row "math score"))) as [m|]; [|done].
  destruct (py_int (strip (Csv.get_or_empty row "reading score"))) as [r|]; [|done].
  destruct (py_int (strip (Csv.get_or_empty row "writing score"))) as [w|]; [|done].
  simpl.
  destruct (negb _); [done|]. destruct (negb _); done.
Qed.

Lemma renumber_from_app k rs1 rs2 :
  renumber_from k (rs1 ++ rs2) =
  renumber_from k rs1 ++ renumber_from (k + Z.of_nat (length rs1)) rs2.
Proof.
  revert k. induction rs1 as [|r rs1 IH]; intros k; simpl.
  - by rewrite Z.add_0_r.
  - rewrite IH. do 3 f_equal. lia.
Qed.

Lemma renumber_from_ids k rs :
  student_id <$> renumber_from k rs = ids_from k (length rs).
Proof.
  revert k. induction rs as [|r rs IH]; intros k; simpl; [done|]. by rewrite IH.
Qed.

Lemma load_rows_result rows : forall idx sid recs notes,
  snd (load_rows rows idx sid recs notes)
    = recs ++ renumber_from sid (omap (load_row 0) rows)
  /\ (Forall is_skip notes -> Forall is_skip (fst (load_rows rows idx sid recs notes))).
Proof.
  induction rows as [|row rows IH]; intros idx sid recs notes; simpl.
  - split; [by rewrite app_nil_r|done].
  - rewrite (load_row_with_id sid row).
    destruct (load_row 0 row) as [r|]; simpl.
    + destruct (IH (S idx) (sid + 1) (recs ++ [with_id sid r]) notes) as [-> Hn].
      split; [by rewrite <- app_assoc|done].
    + destruct (IH (S idx) sid recs (notes ++ [SkippedRow idx])) as [-> Hn].
      split; [done|]. intros Hnotes. apply Hn. apply Forall_app. split; [done|].
      apply Forall_singleton. by eexists.
Qed.

Lemma renumber_from_length k rs : length (renumber_from k rs) = length rs.
Proof. revert k. induction rs as [|r rs IH]; intros k; simpl; [done|]. by rewrite IH. Qed.

Lemma no_missing_columns (headers : list string) :
  REQUIRED_COLS ⊆ headers ->
  filter (fun c => c ∉ headers) REQUIRED_COLS = [].
Proof.
  intros Hsub. induction REQUIRED_COLS as [|c cs IH]; [done|].
  rewrite filter_cons_False.
  - apply IH. intros x Hx. apply Hsub. by right.
  - intros Hc. apply Hc. apply Hsub. by left.
Qed.

Lemma students_load_accepts fs path header body :
  fs path = Some (header :: body) ->
  REQUIRED_COLS ⊆ strip <$> filter (fun h => truthy h = true) header ->
  load_from_csv fs path = load_rows (Csv.dict_rows (header :: body)) 2 1 [] [].
Proof.
  intros Hf Hsub. unfold load_from_csv. rewrite Hf. simpl Csv.fieldnames. cbv iota.
  destruct header as [|h hs].
  - exfalso. simpl in Hsub. specialize (Hsub "gender"). 
    assert (Hin : "gender" ∈ REQUIRED_COLS) by (unfold REQUIRED_COLS; set_solver).
    apply Hsub in Hin. by apply elem_of_nil in Hin.
  - by rewrite (no_missing_columns _ Hsub).
Qed.

Lemma library_load_needs_bid fs path f names s :
  fs path = Some f -> Csv.fieldnames f = Some names -> "bid" ∉ names ->
  exists msg, Library.load_from_csv fs path s = (Raise (RuntimeError msg), s).
Proof.
  intros Hf Hn Hbid. unfold Library.load_from_csv, Library.load_body. rewrite Hf, Hn.
  rewrite bool_decide_eq_false_2.
  - simpl. eauto.
  - intros Hsub. apply Hbid. apply Hsub. unfold Library.required. set_solver.
Qed.

Lemma library_load_row_keeps_bid row b :
  Library.load_row row = Return (Some b) ->
  py_int (strip (Csv.get_or_empty row "bid")) = Some (Library.bid b).
Proof.
  unfold Library.load_row. destruct (negb _); [discriminate|].
  destruct (py_int _) as [n|]; [|discriminate].
  destruct (_ || _); [discriminate|]. by intros [= <-].
Qed.

(** C3, as the code has it. The student loader never requires the
    identifier column: whenever the header holds the eight required
    columns the schema check passes, the Records loaded are the rows that
    decode, in file order, with ids 1, 2, 3, ... and a skipped row consumes
    no id. The library loader does require its identifier column [bid]: a
    file without it is refused as a whole, and an accepted row keeps the id
    written in the file. *)
Theorem load_identifier_column :
  (forall fs path header body,
     fs path = Some (header :: body) ->
     REQUIRED_COLS ⊆ strip <$> filter (fun h => truthy h = true) header ->
     let loaded := snd (load_from_csv fs path) in
     Forall is_skip (fst (load_from_csv fs path)) /\
     loaded = renumber (omap (load_row 0) (Csv.dict_rows (header :: body))) /\
     student_id <$> loaded = ids_from 1 (length loaded))
  /\
  (forall fs path f names s,
     fs path = Some f -> Csv.fieldnames f = Some names -> "bid" ∉ names ->
     exists msg, Library.load_from_csv fs path s = (Raise (RuntimeError msg), s))
  /\
  (forall row b,
     Library.load_row row = Return (Some b) ->
     py_int (strip (Csv.get_or_empty row "bid")) = Some (Library.bid b)).
Proof.
  split; [|split].
  - intros fs path header body Hf Hsub loaded. unfold loaded.
    rewrite (students_load_accepts fs path header body Hf Hsub).
    destruct (load_rows_result (Csv.dict_rows (header :: body)) 2 1 [] []) as [Hrec Hnotes].
    split; [by apply Hnotes|]. rewrite Hrec. simpl. split; [done|].
    unfold renumber. by rewrite renumber_from_ids, renumber_from_length.
  - apply library_load_needs_bid.
  - apply library_load_row_keeps_bid.
Qed.

Lemma load_identifier_column_witness :
  let file :=
    [ ["gender"; "race/ethnicity"; "parental level of education"; "lunch";
       "test preparation course"; "math score"; "reading score"; "writing score"];
      ["female"; "group B"; "college"; "standard"; "none"; "72"; "72"; "74"];
      ["male"; "group A"; "college"; "standard"; "none"; "150"; "60"; "61"];
      [];
      ["male"; " group C "; "high school"; "free/reduced"; "completed"; "47"; " 57"; "44"] ] in
  let fs := fun _ : string => Some file in
  fst (load_from_csv fs "students.csv") = [SkippedRow 3] /\
  snd (load_from_csv fs "students.csv") =
    [ mkStudentRecord 1 "female" "group B" "college" "standard" "none" 72 72 74;
      mkStudentRecord 2 "male" "group C" "high school" "free/reduced" "completed" 47 57 44 ].
Proof.
  intros file fs.
  assert (Hsub : REQUIRED_COLS ⊆
            strip <$> filter (fun h => truthy h = true)
              ["gender"; "race/ethnicity"; "parental level of education"; "lunch";
               "test preparation course"; "math score"; "reading score"; "writing score"]).
  { apply (bool_decide_unpack _). vm_compute. exact I. }
  destruct (proj1 load_identifier_column fs "students.csv" _ _ eq_refl Hsub)
    as (_ & Hloaded & _).
  split; [vm_compute; reflexivity|]. rewrite Hloaded. vm_compute. reflexivity.
Defined.

(** C3 as stated fails in the library program: a file whose header holds
    every required column but the identifier is refused as a whole. *)
Lemma library_load_refuses_file_without_bid :
  let file := [ ["title"; "author"; "category"; "status"];
                ["Dune"; "Herbert"; "SF"; "issued"] ] in
  let fs := fun _ : string => Some file in
  (forall c, c ∈ Library.required -> c <> "bid" -> c ∈ ["title"; "author"; "category"; "status"]) /\
  Library.load_from_csv fs "books.csv" Library.init =
    (Raise (RuntimeError
       "Could not load file. Reason: Invalid CSV format: missing required headers."),
     Library.init).
Proof.
  intros file fs. split.
  - intros c Hc Hne. unfold Library.required in Hc. set_unfold. tauto.
  - vm_compute. reflexivity.
Qed.
End Loading.

(** ** Sorting *)

Section OrderFacts.
Context {K : Type} `{PyTotalOrder K}.

Lemma py_lt_asym (a b : K) : py_lt a b = true -> py_lt b a = false.
Proof.
  intros Hab. destruct (py_lt b a) eqn:Hba; [|done].
  pose proof (py_lt_trans a b a Hab Hba) as Haa.
  by rewrite py_lt_irrefl in Haa.
Qed.

Lemma py_le_trans (a b c : K) :
  py_le a b = true -> py_le b c = true -> py_le a c = true.
Proof.
  unfold py_le. rewrite !negb_true_iff. intros Hba Hcb.
  destruct (py_lt c a) eqn:Hca; [|done].
  destruct (py_lt a b) eqn:Hab.
  - by rewrite (py_lt_trans c a b Hca Hab) in Hcb.
  - rewrite (py_lt_total a b Hab Hba) in Hca. congruence.
Qed.

Lemma py_le_antisym (a b : K) : py_le a b = true -> py_le b a = true -> a = b.
Proof.
  unfold py_le. rewrite !negb_true_iff. intros Hba Hab. by apply py_lt_total.
Qed.

Lemma py_ge_le (a b : K) : py_ge a b = py_le b a.
Proof. reflexivity. Qed.
End OrderFacts.

Section InsertionSortFacts.
Context {A K : Type} `{PyOrd K} (key_fn : A -> K) (before : K -> K -> bool).
Hypothesis before_asym : forall a b, before a b = true -> before b a = false.

(** The order the loop establishes: the left key is not [before]-worse. *)
Let ordered (x y : A) : Prop := before (key_fn x) (key_fn y) = false.

Lemma shift_loop_run (ck : K) (l1 : list A) : forall junk l2,
  exists l1a l1b junk',
    l1 = l1a ++ l1b /\
    Forall (fun y => before (key_fn y) ck = true) l1b /\
    (forall z, last l1a = Some z -> before (key_fn z) ck = false) /\
    shift_loop before key_fn ck (l1 ++ junk :: l2) (length l1)
      = Some (l1a ++ junk' :: l1b ++ l2, length l1a).
Proof.
  induction l1 as [|y l IH] using rev_ind; intros junk l2.
  - exists [], [], junk. repeat split; auto. intros z Hz. discriminate.
  - rewrite length_app. simpl. rewrite Nat.add_1_r. simpl.
    rewrite <- app_assoc. simpl.
    rewrite list_lookup_middle by done.
    destruct (before (key_fn y) ck) eqn:Hy.
    + rewrite bool_decide_eq_true_2 by (rewrite length_app; simpl; lia).
      replace (<[S (length l) := y]> (l ++ y :: junk :: l2)) with (l ++ y :: y :: l2).
      2:{ change (l ++ y :: junk :: l2) with (l ++ [y] ++ junk :: l2).
          rewrite app_assoc.
          replace (S (length l)) with (length (l ++ [y]) + 0)%nat
            by (rewrite length_app; simpl; lia).
          rewrite insert_app_r. simpl. by rewrite <- app_assoc. }
      destruct (IH y (y :: l2)) as (l1a & l1b & junk' & Hl & Hb & Hlast & Hrun).
      exists l1a, (l1b ++ [y]), junk'. repeat split.
      * by rewrite Hl, app_assoc.
      * apply Forall_app. split; [done|]. by apply Forall_singleton.
      * done.
      * rewrite Hrun. by rewrite <- app_assoc.
    + exists (l ++ [y]), [], junk. repeat split.
      * by rewrite app_nil_r.
      * done.
      * intros z Hz. rewrite last_snoc in Hz. by injection Hz as <-.
      * rewrite length_app. simpl. rewrite Nat.add_1_r.
        by rewrite <- app_assoc.
Qed.

Lemma insert_pass_run (l1 : list A) (current : A) (l2 : list A) :
  exists l1a l1b,
    l1 = l1a ++ l1b /\
    Forall (fun y => before (key_fn y) (key_fn current) = true) l1b /\
    (forall z, last l1a = Some z -> before (key_fn z) (key_fn current) = false) /\
    insert_pass before key_fn (l1 ++ current :: l2) (length l1)
      = Some (l1a ++ current :: l1b ++ l2).
Proof.
  unfold insert_pass. rewrite list_lookup_middle by done.
  destruct (shift_loop_run (key_fn current) l1 current l2)
    as (l1a & l1b & junk' & Hl & Hb & Hlast & Hrun).
  rewrite Hrun. exists l1a, l1b. repeat split; auto.
  rewrite bool_decide_eq_true_2 by (rewrite length_app; simpl; lia).
  replace (length l1a) with (length l1a + 0)%nat by lia.
  by rewrite insert_app_r.
Qed.

Lemma sorted_after_insert (l1a l1b : list A) (current : A) :
  Sorted ordered (l1a ++ l1b) ->
  Forall (fun y => before (key_fn y) (key_fn current) = true) l1b ->
  (forall z, last l1a = Some z -> before (key_fn z) (key_fn current) = false) ->
  Sorted ordered (l1a ++ current :: l1b).
Proof.
  intros Hs Hb Hlast. induction l1a as [|x l1a IH]; simpl in *.
  - constructor; [done|]. destruct l1b as [|y l1b]; constructor.
    apply Forall_cons in Hb as [Hy _]. unfold ordered. by apply before_asym.
  - apply Sorted_inv in Hs as [Hs Hhd]. constructor.
    + apply IH; [done|]. intros z Hz. apply Hlast.
      destruct l1a; [discriminate|done].
    + destruct l1a as [|x' l1a]; simpl in *.
      * constructor. unfold ordered. by apply Hlast.
      * constructor. by apply HdRel_inv in Hhd.
Qed.

Lemma insert_passes_run (rest : list A) : forall prefix,
  Sorted ordered prefix ->
  exists l',
    insert_passes before key_fn (prefix ++ rest) (seq (length prefix) (length rest))
      = Some l' /\
    Sorted ordered l' /\ prefix ++ rest ≡ₚ l'.
Proof.
  induction rest as [|current rest IH]; intros prefix Hs; simpl.
  - exists prefix. rewrite app_nil_r. auto.
  - destruct (insert_pass_run prefix current rest) as (l1a & l1b & Hl & Hb & Hlast & Hrun).
    rewrite Hrun.
    assert (Hs' : Sorted ordered (l1a ++ current :: l1b)).
    { apply sorted_after_insert; [by rewrite <- Hl|done|done]. }
    destruct (IH _ Hs') as (l' & Hrun' & Hsorted & Hperm).
    assert (Hlen : length (l1a ++ current :: l1b) = S (length prefix)).
    { rewrite Hl, !length_app. simpl. lia. }
    rewrite Hlen in Hrun'. rewrite <- app_assoc in Hrun'. simpl in Hrun'.
    exists l'. split; [done|]. split; [done|].
    rewrite <- Hperm, Hl. rewrite <- !app_assoc. simpl.
    apply Permutation_app_head. symmetry. apply Permutation_middle.
Qed.

Lemma insertion_passes_sort (records : list A) :
  exists l',
    insert_passes before key_fn records (seq 1 (length records - 1)) = Some l' /\
    Sorted ordered l' /\ records ≡ₚ l'.
Proof.
  destruct records as [|x rest].
  - exists []. simpl. auto.
  - simpl. rewrite Nat.sub_0_r.
    apply (insert_passes_run rest [x]). repeat constructor.
Qed.
End InsertionSortFacts.

Lemma Sorted_weaken {A} (R1 R2 : relation A) (l : list A) :
  (forall x y, R1 x y -> R2 x y) -> Sorted R1 l -> Sorted R2 l.
Proof.
  intros HR Hs. induction Hs as [|x l Hs IH Hhd]; constructor; [done|].
  destruct Hhd; constructor. by apply HR.
Qed.

Lemma rev_is_reverse {A} (l : list A) : rev l = reverse l.
Proof. unfold reverse. apply rev_alt. Qed.

Section MergeSortFacts.
Context {A K : Type} `{PyTotalOrder K} (key_fn : A -> K).

Let le_key : relation A := key_rel py_le key_fn.

Lemma merge_runs_nil_r l1 : merge_runs key_fn l1 [] = l1.
Proof. by destruct l1. Qed.

Lemma merge_runs_cons a l1 b l2 :
  merge_runs key_fn (a :: l1) (b :: l2) =
  if py_lt (key_fn b) (key_fn a)
  then b :: merge_runs key_fn (a :: l1) l2
  else a :: merge_runs key_fn l1 (b :: l2).
Proof. done. Qed.

Lemma merge_runs_perm l1 : forall l2, merge_runs key_fn l1 l2 ≡ₚ l1 ++ l2.
Proof.
  induction l1 as [|a l1 IH1]; intros l2; [by destruct l2|].
  induction l2 as [|b l2 IH2].
  - by rewrite merge_runs_nil_r, app_nil_r.
  - rewrite merge_runs_cons. destruct (py_lt (key_fn b) (key_fn a)).
    + rewrite IH2. change (a :: l1 ++ b :: l2) with ((a :: l1) ++ b :: l2).
      apply Permutation_middle.
    + by rewrite IH1.
Qed.

Lemma merge_runs_head x l1 : forall l2,
  HdRel le_key x l1 -> HdRel le_key x l2 -> HdRel le_key x (merge_runs key_fn l1 l2).
Proof.
  intros l2 H1 H2. destruct l1 as [|a l1]; [by destruct l2|].
  destruct l2 as [|b l2]; [done|].
  rewrite merge_runs_cons. destruct (py_lt (key_fn b) (key_fn a)); constructor.
  - by apply HdRel_inv in H2.
  - by apply HdRel_inv in H1.
Qed.

Lemma merge_runs_sorted l1 : forall l2,
  Sorted le_key l1 -> Sorted le_key l2 -> Sorted le_key (merge_runs key_fn l1 l2).
Proof.
  induction l1 as [|a l1 IH1]; intros l2 Hs1 Hs2; [by destruct l2|].
  induction l2 as [|b l2 IH2]; [done|].
  rewrite merge_runs_cons.
  apply Sorted_inv in Hs1 as [Hs1 Hhd1]. apply Sorted_inv in Hs2 as [Hs2 Hhd2].
  destruct (py_lt (key_fn b) (key_fn a)) eqn:Hba.
  - constructor; [by apply IH2|].
    apply merge_runs_head; [|done]. constructor.
    unfold le_key, key_rel, py_le. by rewrite (py_lt_asym _ _ Hba).
  - constructor; [apply IH1; [done|by constructor]|].
    apply merge_runs_head; [done|]. constructor.
    unfold le_key, key_rel, py_le. by rewrite Hba.
Qed.

Lemma merge_sort_correct fuel : forall l,
  (length l <= fuel)%nat ->
  Sorted le_key (merge_sort fuel key_fn l) /\ merge_sort fuel key_fn l ≡ₚ l.
Proof.
  induction fuel as [|fuel IH]; intros l Hlen.
  - destruct l; [|simpl in Hlen; lia]. simpl. split; [constructor|done].
  - destruct l as [|x [|y l]].
    + simpl. split; [constructor|done].
    + simpl. split; [repeat constructor|done].
    + remember (x :: y :: l) as l0 eqn:El0.
      assert (Hl0 : (2 <= length l0)%nat) by (subst l0; simpl; lia).
      assert (Hstep : merge_sort (S fuel) key_fn l0 =
        merge_runs key_fn (merge_sort fuel key_fn (take (length l0 / 2) l0))
                          (merge_sort fuel key_fn (drop (length l0 / 2) l0))).
      { subst l0. reflexivity. }
      rewrite Hstep. clear Hstep El0.
      assert (Hhalf : (1 <= length l0 / 2 < length l0)%nat).
      { split.
        - apply Nat.div_le_lower_bound; lia.
        - apply Nat.div_lt; lia. }
      destruct (IH (take (length l0 / 2) l0)) as [Hs1 Hp1].
      { rewrite length_take. lia. }
      destruct (IH (drop (length l0 / 2) l0)) as [Hs2 Hp2].
      { rewrite length_drop. lia. }
      split; [by apply merge_runs_sorted|].
      rewrite merge_runs_perm, Hp1, Hp2. by rewrite take_drop.
Qed.

Lemma py_sorted_ascending l :
  Sorted (key_rel py_le key_fn) (py_sorted l key_fn false) /\ py_sorted l key_fn false ≡ₚ l.
Proof. unfold py_sorted. by apply merge_sort_correct. Qed.

Lemma py_sorted_descending l :
  Sorted (key_rel py_ge key_fn) (py_sorted l key_fn true) /\ py_sorted l key_fn true ≡ₚ l.
Proof.
  unfold py_sorted.
  destruct (merge_sort_correct (length l) (rev l)) as [Hs Hp].
  { by rewrite length_rev. }
  rewrite !rev_is_reverse in *. split.
  - apply Sorted_reverse in Hs.
    eapply Sorted_weaken; [|exact Hs]. done.
  - by rewrite reverse_Permutation, Hp, reverse_Permutation.
Qed.
End MergeSortFacts.


Lemma string_compare_trans (a : string) : forall b c,
  String.compare a b = Lt -> String.compare b c = Lt -> String.compare a c = Lt.
Proof.
  induction a as [|x a IH]; intros [|y b] [|z c]; simpl; try done.
  unfold Ascii.compare. intros Hab Hbc.
  destruct (N.compare_spec (N_of_ascii x) (N_of_ascii y)) as [Hxy|Hxy|Hxy];
    [| |discriminate Hab];
    (destruct (N.compare_spec (N_of_ascii y) (N_of_ascii z)) as [Hyz|Hyz|Hyz];
     [| |discriminate Hbc]).
  - rewrite Hxy, Hyz, N.compare_refl. by apply (IH b c).
  - rewrite Hxy. by apply N.compare_lt_iff in Hyz as ->.
  - rewrite <- Hyz. by apply N.compare_lt_iff in Hxy as ->.
  - assert (Hxz : (N_of_ascii x < N_of_ascii z)%N) by lia.
    by apply N.compare_lt_iff in Hxz as ->.
Qed.

Lemma PyTotalOrder_Z : PyTotalOrder Z.
Proof.
  split; unfold py_lt, PyOrd_Z.
  - intros a. apply Z.ltb_irrefl.
  - intros a b c. rewrite !Z.ltb_lt. lia.
  - intros a b. rewrite !Z.ltb_ge. lia.
Qed.

Lemma PyTotalOrder_string : PyTotalOrder string.
Proof.
  split; unfold py_lt, PyOrd_string, String.ltb.
  - intros a. destruct (String.compare a a) eqn:E; try done.
    pose proof (String.compare_antisym a a) as Ha. rewrite E in Ha. discriminate Ha.
  - intros a b c Hab Hbc.
    destruct (String.compare a b) eqn:E1; try done.
    destruct (String.compare b c) eqn:E2; try done.
    by rewrite (string_compare_trans a b c E1 E2).
  - intros a b Hab Hba. rewrite String.compare_antisym in Hba.
    destruct (String.compare a b) eqn:E; simpl in *; try done.
    by apply String.compare_eq_iff.
Qed.

Lemma PyTotalOrder_R : PyTotalOrder R.
Proof.
  split; unfold py_lt, PyOrd_R.
  - intros a. destruct (Rlt_dec a a) as [Ha|]; [|done]. by apply Rlt_irrefl in Ha.
  - intros a b c. destruct (Rlt_dec a b), (Rlt_dec b c), (Rlt_dec a c); try done.
    intros _ _. exfalso. eauto using Rlt_trans.
  - intros a b. destruct (Rlt_dec a b), (Rlt_dec b a); try done.
    intros _ _. destruct (Rtotal_order a b) as [?|[?|?]]; done.
Qed.

#[export] Existing Instance PyTotalOrder_Z.
#[export] Existing Instance PyTotalOrder_string.
#[export] Existing Instance PyTotalOrder_R.

Section SortTheorems.
Context {A K : Type} `{PyTotalOrder K}.

Lemma insertion_sort_ascending (records : list A) (key_fn : A -> K) :
  exists l, insertion_sort records key_fn false = Some l /\
    Sorted (key_rel py_le key_fn) l /\ records ≡ₚ l.
Proof.
  unfold insertion_sort.
  destruct (insertion_passes_sort key_fn py_gt
              (fun a b Hab => py_lt_asym b a Hab) records) as (l & Hrun & Hs & Hp).
  exists l. split; [done|]. split; [|done].
  eapply Sorted_weaken; [|exact Hs]. intros x y Hxy.
  unfold key_rel, py_le. unfold py_gt in Hxy. by rewrite Hxy.
Qed.

Lemma insertion_sort_descending (records : list A) (key_fn : A -> K) :
  exists l, insertion_sort records key_fn true = Some l /\
    Sorted (key_rel py_ge key_fn) l /\ records ≡ₚ l.
Proof.
  unfold insertion_sort.
  destruct (insertion_passes_sort key_fn py_lt py_lt_asym records) as (l & Hrun & Hs & Hp).
  exists l. split; [done|]. split; [|done].
  eapply Sorted_weaken; [|exact Hs]. intros x y Hxy.
  unfold key_rel, py_ge. by rewrite Hxy.
Qed.

Lemma sorted_keys_unique (rel : K -> K -> bool) (key_fn : A -> K) (l1 l2 : list A) :
  (forall a b c, rel a b = true -> rel b c = true -> rel a c = true) ->
  (forall a b, rel a b = true -> rel b a = true -> a = b) ->
  Sorted (key_rel rel key_fn) l1 -> Sorted (key_rel rel key_fn) l2 -> l1 ≡ₚ l2 ->
  key_fn <$> l1 = key_fn <$> l2.
Proof.
  intros Htrans Hanti Hs1 Hs2 Hp.
  set (R := fun a b : K => rel a b = true).
  assert (Transitive R) by (intros a b c; apply Htrans).
  assert (AntiSymm (=) R) by (intros a b; apply Hanti).
  apply (Sorted_unique R).
  - by apply (Sorted_fmap _ (key_rel rel key_fn) R).
  - by apply (Sorted_fmap _ (key_rel rel key_fn) R).
  - by apply fmap_Permutation.
Qed.
End SortTheorems.

Section SortClaims.
Import Library.



(** C6. The manual insertion sort and the platform sort, applied with the
    same key and the same direction, give the same multiset of Records and
    the same sequence of keys. *)
Theorem manual_and_platform_sort_agree
    (A K : Type) (O : PyOrd K) (T : PyTotalOrder K)
    (records : list A) (key_fn : A -> K) (reverse : bool) :
  exists l, insertion_sort records key_fn reverse = Some l /\
    l ≡ₚ py_sorted records key_fn reverse /\
    key_fn <$> l = key_fn <$> py_sorted records key_fn reverse.
Proof.
  destruct reverse.
  - destruct (insertion_sort_descending records key_fn) as (l & Hrun & Hs & Hp).
    destruct (py_sorted_descending key_fn records) as [Hs' Hp'].
    exists l. split; [done|].
    assert (Hperm : l ≡ₚ py_sorted records key_fn true) by (by rewrite <- Hp, Hp').
    split; [done|].
    apply (sorted_keys_unique py_ge key_fn); try done.
    + intros a b c Hab Hbc. rewrite py_ge_le in *. by apply (py_le_trans c b a).
    + intros a b Hab Hba. rewrite py_ge_le in *. by apply py_le_antisym.
  - destruct (insertion_sort_ascending records key_fn) as (l & Hrun & Hs & Hp).
    destruct (py_sorted_ascending key_fn records) as [Hs' Hp'].
    exists l. split; [done|].
    assert (Hperm : l ≡ₚ py_sorted records key_fn false) by (by rewrite <- Hp, Hp').
    split; [done|].
    apply (sorted_keys_unique py_le key_fn); try done.
    + apply py_le_trans.
    + apply py_le_antisym.
Qed.

Lemma manual_and_platform_sort_agree_witness :
  let books := [mkBook 3 "emma" "Austen" "Novel" "issued";
                mkBook 1 "Dune" "Herbert" "SF" "available";
                mkBook 2 "Emma" "Austen" "Novel" "available"] in
  py_sorted books title_key false =
    [mkBook 1 "Dune" "Herbert" "SF" "available";
     mkBook 3 "emma" "Austen" "Novel" "issued";
     mkBook 2 "Emma" "Austen" "Novel" "available"] /\
  exists l, insertion_sort books title_key false = Some l /\
    l ≡ₚ py_sorted books title_key false /\
    title_key <$> l = title_key <$> py_sorted books title_key false.
Proof.
  intros books. split; [reflexivity|].
  exact (manual_and_platform_sort_agree Book string PyOrd_string PyTotalOrder_string
           books title_key false).
Defined.
End SortClaims.

(** ** Statistics *)

Section Statistics.
Import Students StatsSpec.








Lemma fold_min_spec (l : list Z) : forall m,
  let r := fold_left (fun m v => if v <? m then v else m) l m in
  r <= m /\ (forall x, x ∈ l -> r <= x) /\ (r = m \/ r ∈ l).
Proof.
  induction l as [|v l IH]; intros m; simpl.
  - split; [lia|]. split; [|by left]. intros x Hx. by apply elem_of_nil in Hx.
  - destruct (IH (if v <? m then v else m)) as (Hm & Hall & Hin).
    destruct (Z.ltb_spec v m).
    + split; [lia|]. split.
      * intros x Hx. apply elem_of_cons in Hx as [-> | Hx]; [done|by apply Hall].
      * right. destruct Hin as [-> | Hin]; [by left|by right].
    + split; [lia|]. split.
      * intros x Hx. apply elem_of_cons in Hx as [-> | Hx]; [lia|by apply Hall].
      * destruct Hin as [-> | Hin]; [by left|right; by right].
Qed.

Lemma fold_max_spec (l : list Z) : forall m,
  let r := fold_left (fun m v => if m <? v then v else m) l m in
  m <= r /\ (forall x, x ∈ l -> x <= r) /\ (r = m \/ r ∈ l).
Proof.
  induction l as [|v l IH]; intros m; simpl.
  - split; [lia|]. split; [|by left]. intros x Hx. by apply elem_of_nil in Hx.
  - destruct (IH (if m <? v then v else m)) as (Hm & Hall & Hin).
    destruct (Z.ltb_spec m v).
    + split; [lia|]. split.
      * intros x Hx. apply elem_of_cons in Hx as [-> | Hx]; [done|by apply Hall].
      * right. destruct Hin as [-> | Hin]; [by left|by right].
    + split; [lia|]. split.
      * intros x Hx. apply elem_of_cons in Hx as [-> | Hx]; [lia|by apply Hall].
      * destruct Hin as [-> | Hin]; [by left|right; by right].
Qed.







End Statistics.

(** ** Writing and reading an int *)

Section Decimals.
Import Invariants.







Lemma rstrip_no_space (s : string) : no_space s -> rstrip s = s.
Proof.
  induction s as [|c s IH]; simpl; [done|]. intros [Hc Hs].
  rewrite (IH Hs). destruct s; [by rewrite Hc|done].
Qed.







End Decimals.

(** ** Save, then load *)

Section StudentsRoundTrip.
Import Students Renumber Invariants.







End StudentsRoundTrip.

Section LibraryRoundTrip.
Import Library Invariants.

Lemma status_kept (st : string) :
  st ∈ ["issued"; "available"] ->
  _normalize_status st = st /\ _is_valid_status st = true.
Proof.
  intros Hst. set_unfold. destruct Hst as [-> | [-> | []]]; split; reflexivity.
Qed.



End LibraryRoundTrip.

(** ** Trimmed and cleaned text *)

Section TextFacts.
Import Library Invariants.

Lemma lstrip_starts_clear (s : string) : starts_clear (lstrip s).
Proof.
  induction s as [|c s IH]; simpl; [done|].
  destruct (is_space c) eqn:E; [done|]. simpl. done.
Qed.

Lemma lstrip_fixed (s : string) : starts_clear s -> lstrip s = s.
Proof. destruct s as [|c s]; simpl; [done|]. by intros ->. Qed.

Lemma rstrip_starts_clear (s : string) : starts_clear s -> starts_clear (rstrip s).
Proof.
  destruct s as [|c s]; simpl; [done|]. intros Hc.
  destruct (rstrip s); [by rewrite Hc|done].
Qed.

Lemma rstrip_idempotent (s : string) : rstrip (rstrip s) = rstrip s.
Proof.
  induction s as [|c s IH]; simpl; [done|].
  destruct (rstrip s) as [|c' r] eqn:E.
  - destruct (is_space c) eqn:Hc; simpl; [done|]. by rewrite Hc.
  - simpl. simpl in IH. by rewrite IH.
Qed.

Lemma strip_idempotent (s : string) : strip (strip s) = strip s.
Proof.
  unfold strip.
  rewrite (lstrip_fixed (rstrip (lstrip s))).
  - apply rstrip_idempotent.
  - apply rstrip_starts_clear, lstrip_starts_clear.
Qed.

Lemma split_words (s : string) : Forall word (split s).
Proof.
  induction s as [|c s IH]; simpl; [constructor|].
  destruct (is_space c) eqn:Hc; [done|].
  assert (Hone : word (String c "")) by (split; [discriminate|simpl; auto]).
  destruct s as [|c' s'].
  - by repeat constructor.
  - destruct (is_space c') eqn:Hc'.
    + by constructor.
    + destruct (split (String c' s')) as [|w ws].
      * by repeat constructor.
      * apply Forall_cons in IH as [[Hw Hns] Hws]. constructor; [|done].
        split; [discriminate|]. simpl. auto.
Qed.

Lemma append_cons (c : ascii) (a b : string) :
  (String c a ++ b)%string = String c (a ++ b)%string.
Proof. reflexivity. Qed.

Lemma append_nil (b : string) : ("" ++ b)%string = b.
Proof. reflexivity. Qed.

Lemma split_word_then (w : string) : forall rest,
  word w ->
  split (w ++ String " " rest)%string = w :: split rest.
Proof.
  induction w as [|c w IH]; intros rest [Hne Hns]; [done|].
  simpl in Hns. destruct Hns as [Hc Hns]. rewrite append_cons. simpl. rewrite Hc.
  destruct w as [|c' w'].
  - rewrite append_nil. reflexivity.
  - simpl in Hns. destruct Hns as [Hc' Hns'].
    assert (Hw' : word (String c' w')) by (split; [discriminate|simpl; auto]).
    specialize (IH rest Hw').
    rewrite append_cons in *. rewrite Hc'. by rewrite IH.
Qed.

Lemma split_single_word (w : string) : word w -> split w = [w].
Proof.
  induction w as [|c w IH]; intros [Hne Hns]; [done|].
  simpl in Hns. destruct Hns as [Hc Hns]. simpl. rewrite Hc.
  destruct w as [|c' w']; [done|].
  simpl in Hns. destruct Hns as [Hc' Hns']. rewrite Hc'.
  assert (Hw' : word (String c' w')) by (split; [discriminate|simpl; auto]).
  by rewrite (IH Hw').
Qed.

Lemma join_starts_clear (ws : list string) :
  Forall word ws -> starts_clear (join " " ws).
Proof.
  destruct ws as [|w ws]; [done|]. intros Hws. apply Forall_cons in Hws as [[Hne Hns] _].
  destruct w as [|c w]; [done|]. simpl in Hns. destruct Hns as [Hc _].
  simpl. by destruct ws.
Qed.

Lemma split_join (ws : list string) : Forall word ws -> split (join " " ws) = ws.
Proof.
  induction ws as [|w ws IH]; intros Hws; [done|].
  apply Forall_cons in Hws as [Hw Hws].
  destruct ws as [|w' ws'].
  - simpl. by apply split_single_word.
  - change (join " " (w :: w' :: ws')) with (w ++ String " " (join " " (w' :: ws')))%string.
    rewrite split_word_then by done.
    by rewrite (IH Hws).
Qed.

Lemma rstrip_app_fixed (a b : string) :
  b <> "" -> rstrip b = b -> rstrip (a ++ b)%string = (a ++ b)%string.
Proof.
  intros Hb Hfix. induction a as [|c a IH]; [by rewrite append_nil|].
  rewrite append_cons. simpl. rewrite IH. destruct (a ++ b)%string eqn:E; [|reflexivity].
  destruct a; [by rewrite append_nil in E|by rewrite append_cons in E].
Qed.

Lemma join_rstrip_fixed (ws : list string) :
  Forall word ws -> rstrip (join " " ws) = join " " ws.
Proof.
  induction ws as [|w ws IH]; intros Hws; [done|].
  apply Forall_cons in Hws as [[Hne Hns] Hws].
  destruct ws as [|w' ws'].
  - simpl. by apply rstrip_no_space.
  - change (join " " (w :: w' :: ws')) with (w ++ String " " (join " " (w' :: ws')))%string.
    change (String " " (join " " (w' :: ws'))) with (" " ++ join " " (w' :: ws'))%string.
    assert (Hj : join " " (w' :: ws') <> "").
    { apply Forall_cons in Hws as [[Hne' _] _]. destruct w'; [done|].
      destruct ws'; [discriminate|]. simpl. rewrite append_cons. discriminate. }
    rewrite rstrip_app_fixed; [done| |].
    + rewrite append_cons. discriminate.
    + apply (rstrip_app_fixed " " _ Hj). by apply IH.
Qed.

Lemma clean_text_idempotent (s : string) : _clean_text (_clean_text s) = _clean_text s.
Proof.
  unfold _clean_text. pose proof (split_words (strip s)) as Hws.
  set (ws := split (strip s)) in *.
  unfold strip. rewrite (lstrip_fixed _ (join_starts_clear ws Hws)).
  rewrite (join_rstrip_fixed ws Hws). by rewrite (split_join ws Hws).
Qed.
End TextFacts.

(** ** The invariants hold of every store the programs build *)

Section Preservation.
Import Invariants.







Lemma preserves_weaken {S A} (P : S -> Prop) (Q Q' : A -> Prop) (c : M S A) :
  (forall a, Q a -> Q' a) -> preserves P Q c -> preserves P Q' c.
Proof. intros HQ Hc s Hs. destruct (Hc s Hs) as [Hs' Hq]. split; auto. Qed.
End Preservation.

Section StudentsPreservation.
Import Students Invariants.



Lemma accept_nonempty_trimmed line v : accept_nonempty line = Some v -> trimmed v.
Proof.
  unfold accept_nonempty, truthy. destruct (String.eqb_spec (strip line) ""); simpl; [done|].
  intros [= <-]. split; [apply strip_idempotent|done].
Qed.

Lemma accept_score_in_bound line n : accept_int_range 0 100 line = Some n -> in_bound n.
Proof.
  unfold accept_int_range. destruct (py_int _) as [m|]; [|done].
  destruct (Z.leb_spec 0 m), (Z.leb_spec m 100); simpl; try done.
  intros [= <-]. by split.
Qed.















End StudentsPreservation.

Section LibraryPreservation.
Import Library Invariants.

















End LibraryPreservation.

Section RoundTrip.
Import Invariants Renumber.


End RoundTrip.

(** * Further properties of the two programs *)

(** ** Rules for pre- and postconditions *)

Section HoareRules.
Context {S : Type}.


Lemma hoare_bind {A B} (P : S -> Prop) (Q : A -> S -> Prop) (Q' : B -> S -> Prop) E
    (c : M S A) (k : A -> M S B) :
  hoare P c Q E -> (forall a, hoare (Q a) (k a) Q' E) -> hoare P (bind c k) Q' E.
Proof.
  intros Hc Hk s Hs. unfold bind. specialize (Hc s Hs).
  destruct (c s) as [[a|e] s']; [by apply Hk|done].
Qed.

Lemma hoare_get (P : S -> Prop) E : hoare P get (fun a s => a = s /\ P s) E.
Proof. intros s Hs. by split. Qed.

Lemma hoare_modify (P : S -> Prop) (Q : unit -> S -> Prop) E (f : S -> S) :
  (forall s, P s -> Q tt (f s)) -> hoare P (modify f) Q E.
Proof. intros H s Hs. by apply H. Qed.

Lemma hoare_weaken {A} (P P' : S -> Prop) (Q Q' : A -> S -> Prop)
    (E E' : exn -> S -> Prop) (c : M S A) :
  (forall s, P' s -> P s) -> (forall a s, Q a s -> Q' a s) -> (forall e s, E e s -> E' e s) ->
  hoare P c Q E -> hoare P' c Q' E'.
Proof.
  intros HP HQ HE Hc s Hs. specialize (Hc s (HP s Hs)).
  destruct (c s) as [[a|e] s']; auto.
Qed.

Lemma hoare_pure {A} (P : S -> Prop) (F : Prop) (c : M S A) (Q : A -> S -> Prop) E :
  (F -> hoare P c Q E) -> hoare (fun s => F /\ P s) c Q E.
Proof. intros H s [HF Hs]. by apply H. Qed.
End HoareRules.

(** ** How the catalog's operations compose *)

Section CatalogComposition.
Import Library.

Lemma find_in_app_none l1 l2 x :
  (forall b, b ∈ l1 -> bid b <> x) -> find_in (l1 ++ l2) x = find_in l2 x.
Proof.
  induction l1 as [|b l1 IH]; intros Hl1; simpl; [done|].
  destruct (Z.eqb_spec (bid b) x) as [E|_].
  - exfalso. apply (Hl1 b); [left|done].
  - apply IH. intros b' Hb'. apply Hl1. by right.
Qed.

Lemma find_in_app_some l1 l2 x b :
  find_in l1 x = Some b -> find_in (l1 ++ l2) x = Some b.
Proof.
  induction l1 as [|b0 l1 IH]; simpl; [done|].
  destruct (bid b0 =? x); [done|]. apply IH.
Qed.

Lemma delete_first_split bs x :
  match delete_first bs x with
  | None => find_in bs x = None
  | Some bs' =>
      exists l1 b l2, bs = l1 ++ b :: l2 /\ bid b = x /\
        (forall b', b' ∈ l1 -> bid b' <> x) /\ bs' = l1 ++ l2 /\ find_in bs x = Some b
  end.
Proof.
  induction bs as [|b bs IH]; simpl; [done|].
  destruct (Z.eqb_spec (bid b) x) as [E|Hne].
  - exists [], b, bs. repeat split; auto. intros b' Hb'. by apply elem_of_nil in Hb'.
  - destruct (delete_first bs x) as [bs'|]; simpl; [|done].
    destruct IH as (l1 & b0 & l2 & -> & Hb0 & Hl1 & -> & Hfind).
    exists (b :: l1), b0, l2. repeat split; auto.
    intros b' Hb'. apply elem_of_cons in Hb' as [-> | Hb']; auto.
Qed.

Lemma find_in_absent bs x : (forall b, b ∈ bs -> bid b <> x) -> find_in bs x = None.
Proof. intros H. by apply find_in_None. Qed.

(** X1. [delete_book] removes the first Book with the id and keeps the
    others in their order; when no Book has the id it raises [LookupError]
    and changes nothing. On a catalog with distinct ids the id is gone
    afterwards: it is not found, and deleting it again raises. *)
Theorem delete_book_removes_first_match (s : LibrarySystem) (x : Z) :
  (_find_by_id_linear s x = None ->
     delete_book x s = (Raise (LookupError "Book ID not found."), s)) /\
  (forall b, _find_by_id_linear s x = Some b ->
     exists l1 l2,
       _books s = l1 ++ b :: l2 /\ (forall b', b' ∈ l1 -> bid b' <> x) /\
       delete_book x s = (Return tt, set_books (l1 ++ l2) s) /\
       (NoDup (bid <$> _books s) ->
          _find_by_id_linear (set_books (l1 ++ l2) s) x = None /\
          delete_book x (set_books (l1 ++ l2) s)
            = (Raise (LookupError "Book ID not found."), set_books (l1 ++ l2) s))).
Proof.
  unfold _find_by_id_linear.
  assert (Hmiss : forall s0, find_in (_books s0) x = None ->
            delete_book x s0 = (Raise (LookupError "Book ID not found."), s0)).
  { intros s0 Hnone. unfold delete_book, bind, get.
    pose proof (delete_first_split (_books s0) x) as Hd.
    destruct (delete_first (_books s0) x) as [bs'|]; [|done].
    destruct Hd as (? & ? & ? & _ & _ & _ & _ & Hf). congruence. }
  split; [apply Hmiss|].
  intros b Hb. pose proof (delete_first_split (_books s) x) as Hd.
  destruct (delete_first (_books s) x) as [bs'|] eqn:E; [|congruence].
  destruct Hd as (l1 & b0 & l2 & Hbooks & Hb0 & Hl1 & -> & Hfind).
  assert (b0 = b) as -> by congruence.
  exists l1, l2. split; [done|]. split; [done|]. split.
  - unfold delete_book, bind, get. by rewrite E.
  - intros Hnd.
    assert (Hgone : find_in (l1 ++ l2) x = None).
    { apply find_in_absent. intros b' Hb' Hx.
      rewrite Hbooks, fmap_app, fmap_cons in Hnd.
      apply NoDup_app in Hnd as (_ & Hdisj & Hnd2).
      apply NoDup_cons in Hnd2 as [Hnotin _].
      apply elem_of_app in Hb' as [Hb'|Hb'].
      - by apply (Hl1 b').
      - apply Hnotin. rewrite Hb0, <- Hx. by apply list_elem_of_fmap_2. }
    split; [exact Hgone|]. by apply Hmiss.
Qed.

Lemma delete_book_removes_first_match_witness :
  let b1 := mkBook 4 "Dune" "Herbert" "SF" "issued" in
  let b2 := mkBook 7 "Emma" "Austen" "Novel" "available" in
  let b3 := mkBook 9 "Ulysses" "Joyce" "Novel" "issued" in
  let s := {| _books := [b1; b2; b3]; _loaded_file := None |} in
  delete_book 5 s = (Raise (LookupError "Book ID not found."), s) /\
  exists l1 l2,
    _books s = l1 ++ b2 :: l2 /\ (forall b', b' ∈ l1 -> bid b' <> 7) /\
    delete_book 7 s = (Return tt, set_books (l1 ++ l2) s) /\
    (NoDup (bid <$> _books s) ->
       _find_by_id_linear (set_books (l1 ++ l2) s) 7 = None /\
       delete_book 7 (set_books (l1 ++ l2) s)
         = (Raise (LookupError "Book ID not found."), set_books (l1 ++ l2) s)).
Proof.
  intros b1 b2 b3 s. split.
  - apply (proj1 (delete_book_removes_first_match s 5)). reflexivity.
  - apply (proj2 (delete_book_removes_first_match s 7) b2). reflexivity.
Defined.

(** X2. After a successful [add_book] the new Book is the last of the
    catalog, it is the one found under its id and among those found under
    the title as typed, and every other id is found as before. *)
Theorem add_book_then_find (s s' : LibrarySystem) (t a c st : string) (nb : Book) :
  add_book t a c st s = (Return nb, s') ->
  _books s' = _books s ++ [nb] /\
  _loaded_file s' = _loaded_file s /\
  _find_by_id_linear s' (bid nb) = Some nb /\
  (forall x, x <> bid nb -> _find_by_id_linear s' x = _find_by_id_linear s x) /\
  nb ∈ _find_all_by_title_linear s' t.
Proof.
  intros Hadd.
  destruct (add_book_outcome s t a c st) as [[msg E]|(nb' & Hid & E)];
    rewrite E in Hadd; [discriminate|].
  injection Hadd as <- <-. unfold _find_by_id_linear. simpl.
  split; [done|]. split; [done|]. split; [|split].
  - rewrite find_in_app_none.
    + simpl. by rewrite Z.eqb_refl.
    + intros b Hb Hx.
      assert (Hlt : bid b < _next_id s).
      { apply next_id_above_current. unfold Lifetime.ids.
        by apply list_elem_of_fmap_2. }
      lia.
  - intros x Hx. destruct (find_in (_books s) x) as [b|] eqn:Hf.
    + by apply find_in_app_some.
    + rewrite find_in_app_none by (by apply find_in_None).
      simpl. destruct (Z.eqb_spec (bid nb') x) as [Heq|_]; [by subst x|done].
  - unfold _find_all_by_title_linear. simpl. apply list_elem_of_filter. split.
    + unfold add_book in E.
      destruct (_ || _); [discriminate|]. destruct (negb _); [discriminate|].
      injection E as <- _. reflexivity.
    + apply elem_of_app. right. by left.
Qed.

Lemma add_book_then_find_witness :
  let s := {| _books := [mkBook 4 "Dune" "Herbert" "SF" "issued"]; _loaded_file := None |} in
  let nb := mkBook 5 "The Trial" "Kafka" "Novel" "available" in
  let s' := set_books (_books s ++ [nb]) s in
  _books s' = _books s ++ [nb] /\
  _loaded_file s' = _loaded_file s /\
  _find_by_id_linear s' (bid nb) = Some nb /\
  (forall x, x <> bid nb -> _find_by_id_linear s' x = _find_by_id_linear s x) /\
  nb ∈ _find_all_by_title_linear s' " The   Trial ".
Proof.
  intros s nb s'.
  apply (add_book_then_find s s' " The   Trial " "Kafka" "Novel" "in stock" nb).
  reflexivity.
Defined.

Lemma assign_found_split bs x f b :
  find_in bs x = Some b ->
  exists l1 l2, bs = l1 ++ b :: l2 /\ bid b = x /\
    (forall b', b' ∈ l1 -> bid b' <> x) /\ assign_found bs x f = l1 ++ f b :: l2.
Proof.
  induction bs as [|b0 bs IH]; simpl; [done|].
  destruct (Z.eqb_spec (bid b0) x) as [E|Hne].
  - intros [= <-]. exists [], bs. repeat split; auto.
    intros b' Hb'. by apply elem_of_nil in Hb'.
  - intros Hf. destruct (IH Hf) as (l1 & l2 & -> & Hb & Hl1 & ->).
    exists (b0 :: l1), l2. repeat split; auto.
    intros b' Hb'. apply elem_of_cons in Hb' as [-> | Hb']; auto.
Qed.

(** X3. A successful [update_book] changes one Book only, the first with
    the id: it takes the cleaned texts and the canonical status and keeps
    its id and its place; the ids of the catalog and every other Book are
    as before, the updated Book is the one found under the id, and every
    other id is found as before. *)
Theorem update_book_changes_one_book (s s' : LibrarySystem) (x : Z) (t a c st : string) :
  update_book x t a c st s = (Return tt, s') ->
  exists l1 b l2,
    _books s = l1 ++ b :: l2 /\ bid b = x /\ (forall b', b' ∈ l1 -> bid b' <> x) /\
    let b' := mkBook x (_clean_text t) (_clean_text a) (_clean_text c)
                       (_normalize_status st) in
    _books s' = l1 ++ b' :: l2 /\
    _loaded_file s' = _loaded_file s /\
    bid <$> _books s' = bid <$> _books s /\
    _find_by_id_linear s' x = Some b' /\
    (forall y, y <> x -> _find_by_id_linear s' y = _find_by_id_linear s y).
Proof.
  intros Hup. unfold update_book, bind, get in Hup. unfold _find_by_id_linear in *.
  destruct (find_in (_books s) x) as [b|] eqn:Hf; [|discriminate].
  destruct (_ || _); [discriminate|]. destruct (negb _); [discriminate|].
  injection Hup as <-.
  destruct (assign_found_split (_books s) x
              (fun b => mkBook (bid b) (_clean_text t) (_clean_text a) (_clean_text c)
                               (_normalize_status st)) b Hf)
    as (l1 & l2 & Hbooks & Hb & Hl1 & Hassign).
  exists l1, b, l2. split; [done|]. split; [done|]. split; [done|].
  simpl. rewrite Hassign, Hb, Hbooks.
  split; [done|]. split; [done|]. split; [|split].
  - rewrite !fmap_app, !fmap_cons. simpl. by rewrite Hb.
  - rewrite find_in_app_none by done. simpl. by rewrite Z.eqb_refl.
  - intros y Hy.
    destruct (find_in l1 y) as [b1|] eqn:H1.
    + by rewrite !(find_in_app_some l1 _ y b1 H1).
    + rewrite !find_in_app_none by (by apply find_in_None). simpl. rewrite Hb.
      by destruct (Z.eqb_spec x y).
Qed.

Lemma update_book_changes_one_book_witness :
  let b1 := mkBook 4 "Dune" "Herbert" "SF" "issued" in
  let b3 := mkBook 7 "Emma II" "Austen" "Novel" "issued" in
  let s := {| _books := [b1; mkBook 7 "Emma" "Austen" "Novel" "available"; b3];
              _loaded_file := None |} in
  let s' := {| _books := [b1; mkBook 7 "Emma" "Jane Austen" "Novel" "issued"; b3];
               _loaded_file := None |} in
  exists l1 b l2,
    _books s = l1 ++ b :: l2 /\ bid b = 7 /\ (forall b', b' ∈ l1 -> bid b' <> 7) /\
    let b' := mkBook 7 (_clean_text "Emma") (_clean_text " Jane   Austen")
                       (_clean_text "Novel") (_normalize_status "ISSUE") in
    _books s' = l1 ++ b' :: l2 /\
    _loaded_file s' = _loaded_file s /\
    bid <$> _books s' = bid <$> _books s /\
    _find_by_id_linear s' 7 = Some b' /\
    (forall y, y <> 7 -> _find_by_id_linear s' y = _find_by_id_linear s y).
Proof.
  intros b1 b3 s s'.
  apply (update_book_changes_one_book s s' 7 "Emma" " Jane   Austen" "Novel" "ISSUE").
  reflexivity.
Defined.
End CatalogComposition.

(** ** Cleaned text *)

Section CleanText.
Import Library Invariants TextSpec.










End CleanText.

(** ** Loading the catalog *)

Section CatalogLoad.
Import Library LoadSpec.







End CatalogLoad.

(** ** The analysis summary of the catalog *)

Section Analysis.
Import Library LibraryMenu TallySpec Invariants.

Lemma count_of_bump k k' counts :
  count_of k (bump k' counts) = if decide (k' = k) then count_of k counts + 1 else count_of k counts.
Proof.
  induction counts as [|[k0 n] rest IH]; simpl.
  - destruct (String.eqb_spec k' k), (decide (k' = k)); try done.
  - destruct (String.eqb_spec k0 k') as [->|Hne]; simpl.
    + destruct (String.eqb_spec k' k), (decide (k' = k)); try done.
    + destruct (String.eqb_spec k0 k) as [->|Hne'].
      * by rewrite decide_False by done.
      * exact IH.
Qed.

Lemma keys_bump k counts :
  fst <$> bump k counts =
    if decide (k ∈ fst <$> counts) then fst <$> counts else (fst <$> counts) ++ [k].
Proof.
  induction counts as [|[k0 n] rest IH].
  - simpl. destruct (decide (k ∈ [])) as [Hin|_]; [|done]. by apply elem_of_nil in Hin.
  - change (fst <$> (k0, n) :: rest) with (k0 :: (fst <$> rest)).
    simpl bump. destruct (String.eqb_spec k0 k) as [->|Hne].
    + destruct (decide (k ∈ k :: (fst <$> rest))) as [_|Hnin]; [done|].
      exfalso. apply Hnin. by left.
    + change (fst <$> (k0, n) :: bump k rest) with (k0 :: (fst <$> bump k rest)).
      rewrite IH. destruct (decide (k ∈ fst <$> rest)) as [Hin|Hnin];
        destruct (decide (k ∈ k0 :: (fst <$> rest))) as [Hin'|Hnin']; try done.
      * exfalso. apply Hnin'. by right.
      * apply elem_of_cons in Hin' as [?|?]; congruence.
Qed.

Lemma sum_counts_cons k n counts : sum_counts ((k, n) :: counts) = n + sum_counts counts.
Proof. reflexivity. Qed.

Lemma sum_counts_bump k counts : sum_counts (bump k counts) = sum_counts counts + 1.
Proof.
  induction counts as [|[k0 n] rest IH]; [done|]. simpl bump.
  destruct (String.eqb k0 k); rewrite !sum_counts_cons; [lia|]. rewrite IH. lia.
Qed.

Lemma positive_bump k counts :
  Forall (fun p => 0 < snd p) counts -> Forall (fun p => 0 < snd p) (bump k counts).
Proof.
  induction 1 as [|[k0 n] rest Hn Hrest IH]; simpl.
  - repeat constructor.
  - destruct (String.eqb k0 k); constructor; simpl in *; auto; lia.
Qed.

Lemma count_of_absent k counts : k ∉ fst <$> counts -> count_of k counts = 0.
Proof.
  induction counts as [|[k0 n] rest IH]; simpl; [done|]. intros Hk.
  destruct (String.eqb_spec k0 k) as [->|_].
  - exfalso. apply Hk. by left.
  - apply IH. intros Hin. apply Hk. by right.
Qed.

Lemma count_of_listed k n counts :
  NoDup (fst <$> counts) -> (k, n) ∈ counts -> count_of k counts = n.
Proof.
  induction counts as [|[k0 n0] rest IH]; simpl; intros Hnd Hin.
  - by apply elem_of_nil in Hin.
  - apply NoDup_cons in Hnd as [Hk0 Hnd].
    apply elem_of_cons in Hin as [[= -> ->]|Hin].
    + by rewrite String.eqb_refl.
    + destruct (String.eqb_spec k0 k) as [->|_]; [|by apply IH].
      exfalso. apply Hk0. change k with (fst (k, n)). by apply list_elem_of_fmap_2.
Qed.

Lemma occurrences_snoc f k books b :
  occurrences f k (books ++ [b]) =
    if decide (f b = k) then occurrences f k books + 1 else occurrences f k books.
Proof.
  unfold occurrences. rewrite filter_app, length_app.
  destruct (decide (f b = k)) as [E|E].
  - rewrite filter_cons_True by done. simpl. lia.
  - rewrite filter_cons_False by done. simpl. lia.
Qed.

(** The table after the loop, the loop taken from any table on. *)
Lemma tally_loop f (books : list Book) : forall done counts,
  NoDup (fst <$> counts) -> Forall (fun p => 0 < snd p) counts ->
  (forall k, count_of k counts = occurrences f k done) ->
  sum_counts counts = Z.of_nat (length done) ->
  let final := fold_left (fun counts b => bump (f b) counts) books counts in
  NoDup (fst <$> final) /\ Forall (fun p => 0 < snd p) final /\
  (forall k, count_of k final = occurrences f k (done ++ books)) /\
  sum_counts final = Z.of_nat (length (done ++ books)).
Proof.
  induction books as [|b books IH]; intros done counts Hnd Hpos Hcount Hsum; simpl.
  - by rewrite app_nil_r.
  - replace (done ++ b :: books) with ((done ++ [b]) ++ books) by (by rewrite <- app_assoc).
    apply IH.
    + rewrite keys_bump. destruct (decide _) as [Hin|Hnin]; [done|].
      apply NoDup_app. split; [done|]. split; [|apply NoDup_singleton].
      intros x Hx ->%list_elem_of_singleton. done.
    + by apply positive_bump.
    + intros k. rewrite count_of_bump, occurrences_snoc, Hcount. done.
    + rewrite sum_counts_bump, Hsum, length_app. simpl. lia.
Qed.

Lemma count_by_exact f (books : list Book) :
  NoDup (fst <$> count_by f books) /\
  Forall (fun p => 0 < snd p) (count_by f books) /\
  (forall k, count_of k (count_by f books) = occurrences f k books) /\
  sum_counts (count_by f books) = Z.of_nat (length books).
Proof.
  unfold count_by. apply (tally_loop f books [] []); try done; constructor.
Qed.

Lemma top3_largest (counts : list (string * Z)) :
  (length (top3 counts) <= 3)%nat /\
  top3 counts ⊆ counts /\
  Sorted (fun p q => snd q <= snd p) (top3 counts) /\
  (forall p q, p ∈ top3 counts -> q ∈ counts -> q ∉ top3 counts -> snd q <= snd p).
Proof.
  unfold top3. destruct (py_sorted_descending snd counts) as [Hs Hp].
  set (sorted := py_sorted counts snd true) in *.
  assert (Hrel : forall p q : string * Z, key_rel py_ge snd p q -> snd q <= snd p).
  { intros p q. unfold key_rel, py_ge, py_lt, PyOrd_Z.
    rewrite negb_true_iff, Z.ltb_ge. done. }
  assert (Hss : StronglySorted (fun p q : string * Z => snd q <= snd p) sorted).
  { apply Sorted_StronglySorted.
    - intros p q r. lia.
    - eapply Sorted_weaken; [exact Hrel|exact Hs]. }
  rewrite <- (take_drop 3 sorted) in Hss.
  split; [rewrite length_take; lia|]. split; [|split].
  - intros p Hp'. rewrite <- Hp. by eapply subseteq_take.
  - apply StronglySorted_Sorted. by apply StronglySorted_app_1_l in Hss.
  - intros p q Hp' Hq Hnot.
    rewrite <- Hp, <- (take_drop 3 sorted) in Hq.
    apply elem_of_app in Hq as [Hq|Hq]; [done|].
    by apply (StronglySorted_app_1_elem_of _ _ _ p q Hss).
Qed.

Lemma occurrences_cons f k b (books : list Book) :
  occurrences f k (b :: books) =
    if decide (f b = k) then occurrences f k books + 1 else occurrences f k books.
Proof.
  unfold occurrences. destruct (decide (f b = k)) as [E|E].
  - rewrite filter_cons_True by done. simpl length. lia.
  - by rewrite filter_cons_False by done.
Qed.

Lemma status_counts_exact (books : list Book) : forall i a,
  fold_left (fun '(i, a) b =>
               if String.eqb (status b) "issued" then (i + 1, a)
               else if String.eqb (status b) "available" then (i, a + 1)
               else (i, a)) books (i, a)
  = (i + occurrences status "issued" books, a + occurrences status "available" books).
Proof.
  induction books as [|b books IH]; intros i a.
  - unfold occurrences. simpl. f_equal; lia.
  - rewrite !occurrences_cons. simpl fold_left.
    destruct (String.eqb_spec (status b) "issued") as [E|E].
    + rewrite IH, decide_True, decide_False by (done || (rewrite E; discriminate)).
      f_equal; lia.
    + rewrite (decide_False (P := status b = "issued")) by done.
      destruct (String.eqb_spec (status b) "available") as [E'|E'].
      * rewrite IH, decide_True by done. f_equal; lia.
      * rewrite IH, decide_False by done. done.
Qed.

Lemma valid_statuses_partition (books : list Book) :
  Forall valid_book books ->
  occurrences status "issued" books + occurrences status "available" books
    = Z.of_nat (length books).
Proof.
  induction 1 as [|b books Hb Hbooks IH]; [done|].
  rewrite !occurrences_cons. simpl length.
  destruct Hb as (_ & _ & _ & _ & Hst). set_unfold.
  destruct Hst as [E | [E | []]].
  - rewrite decide_True, decide_False by (done || (rewrite E; discriminate)). lia.
  - rewrite decide_False, decide_True by (done || (rewrite E; discriminate)). lia.
Qed.

Lemma count_of_member k counts :
  k ∈ fst <$> counts -> (k, count_of k counts) ∈ counts.
Proof.
  induction counts as [|[k0 n] rest IH]; simpl.
  - intros Hin. by apply elem_of_nil in Hin.
  - intros Hin. destruct (String.eqb_spec k0 k) as [->|Hne]; [by left|].
    right. apply IH. apply elem_of_cons in Hin as [?|?]; [congruence|done].
Qed.

Lemma top3_of_table f (books : list Book) :
  most_frequent f books (top3 (count_by f books)).
Proof.
  destruct (count_by_exact f books) as (Hnd & Hpos & Hcount & _).
  destruct (top3_largest (count_by f books)) as (Hlen & Hsub & Hsorted & Hbig).
  set (counts := count_by f books) in *.
  assert (Hperm : py_sorted counts snd true ≡ₚ counts)
    by apply (py_sorted_descending snd counts).
  split; [done|]. split; [|split; [|split; [done|split]]].
  - assert (Hall : NoDup (fst <$> py_sorted counts snd true)) by (by rewrite Hperm).
    apply (sublist_NoDup _ _ Hall), fmap_sublist, sublist_take.
  - intros k n Hin. apply Hsub in Hin. split.
    + rewrite <- Hcount. symmetry. by apply count_of_listed.
    + rewrite Forall_forall in Hpos. by apply (Hpos (k, n)).
  - intros k p Hk Hp.
    destruct (decide (k ∈ fst <$> counts)) as [Hin|Hnin].
    + rewrite <- Hcount. apply count_of_member in Hin.
      apply (Hbig p (k, count_of k counts) Hp Hin).
      intros Htop. apply Hk. change k with (fst (k, count_of k counts)).
      by apply list_elem_of_fmap_2.
    + rewrite <- Hcount, count_of_absent by done.
      apply Hsub in Hp. rewrite Forall_forall in Hpos. specialize (Hpos p Hp). lia.
  - intros k Hk Hshort. unfold top3 in *.
    rewrite length_take in Hshort. rewrite take_ge by lia. rewrite Hperm.
    destruct (decide (k ∈ fst <$> counts)) as [Hin|Hnin]; [done|].
    rewrite <- Hcount, count_of_absent in Hk by done. lia.
Qed.

(** X6. The analysis summary never fails: it reports nothing exactly when the
    catalog is empty, and otherwise its figures are the number of Books, the
    exact numbers of Books whose status is issued and available, and the
    smallest and largest identifier present; in a catalog whose Books are all
    valid the two status figures add up to the total. *)
Theorem analysis_summary_figures (s : LibrarySystem) :
  match analysis_summary s with
  | Return None => _books s = []
  | Return (Some a) =>
      _books s <> [] /\
      total a = length (_books s) /\
      issued_count a = occurrences status "issued" (_books s) /\
      available_count a = occurrences status "available" (_books s) /\
      (forall b, b ∈ _books s -> min_id a <= bid b <= max_id a) /\
      (exists b, b ∈ _books s /\ bid b = min_id a) /\
      (exists b, b ∈ _books s /\ bid b = max_id a) /\
      (valid_catalog s -> issued_count a + available_count a = Z.of_nat (total a))
  | Raise _ => False
  end.
Proof.
  unfold analysis_summary, valid_catalog.
  destruct (_books s) as [|b0 books] eqn:Hbooks; [done|].
  unfold status_counts. rewrite status_counts_exact.
  unfold py_min, py_max, py_gt, py_lt, PyOrd_Z.
  change (bid <$> b0 :: books) with (bid b0 :: (bid <$> books)).
  cbv beta iota. simpl result_bind.
  cbv beta iota. unfold total, issued_count, available_count, min_id, max_id.
  destruct (fold_min_spec (bid <$> books) (bid b0)) as (Hlo0 & Hlo & Hlo_in).
  destruct (fold_max_spec (bid <$> books) (bid b0)) as (Hhi0 & Hhi & Hhi_in).
  cbv zeta in *.
  set (lo := fold_left _ (bid <$> books) (bid b0)) in *.
  set (hi := fold_left _ (bid <$> books) (bid b0)) in *.
  assert (Hmem : forall x, (x = bid b0 \/ x ∈ bid <$> books) ->
                           exists b, b ∈ b0 :: books /\ bid b = x).
  { intros x [-> | Hx].
    - exists b0. split; [by left|done].
    - apply list_elem_of_fmap in Hx as (b & -> & Hb). exists b. split; [by right|done]. }
  split; [done|]. split; [done|]. split; [lia|]. split; [lia|].
  split; [|split; [by apply Hmem|split; [by apply Hmem|]]].
  - intros b [-> | Hb]%elem_of_cons; [lia|].
    split; [apply Hlo|apply Hhi]; by apply list_elem_of_fmap_2.
  - intros Hvalid. rewrite !Z.add_0_l.
    by rewrite (valid_statuses_partition _ Hvalid).
Qed.

(** X7. The two rankings in the analysis summary (categories and authors)
    each list at most three distinct values with their exact numbers of
    Books, largest number first; no value left out of a ranking has more
    Books than a listed one, and a ranking shorter than three leaves no
    value out. *)
Theorem analysis_summary_rankings (s : LibrarySystem) (a : analysis) :
  analysis_summary s = Return (Some a) ->
  most_frequent category (_books s) (top_categories a) /\
  most_frequent author (_books s) (top_authors a).
Proof.
  unfold analysis_summary.
  destruct (_books s) as [|b0 books] eqn:Hbooks; [done|].
  destruct (status_counts (b0 :: books)) as [i av].
  destruct (py_min (bid <$> b0 :: books)) as [lo|e]; [|done].
  destruct (py_max (bid <$> b0 :: books)) as [hi|e]; [|done].
  simpl. intros [= <-]. simpl. split; apply top3_of_table.
Qed.

Lemma analysis_summary_rankings_witness :
  let books := [ mkBook 1 "Dune" "Herbert" "SciFi" "issued";
                 mkBook 2 "Emma" "Austen" "Novel" "available";
                 mkBook 3 "Persuasion" "Austen" "Novel" "available";
                 mkBook 4 "Ulysses" "Joyce" "Novel" "issued";
                 mkBook 5 "Cosmos" "Sagan" "Science" "available";
                 mkBook 6 "Contact" "Sagan" "SciFi" "available";
                 mkBook 7 "Walden" "Thoreau" "Essay" "available" ] in
  let s := mkLibrarySystem books None in
  let a := mkAnalysis 7 2 5 1 7
             [("Novel", 3); ("SciFi", 2); ("Science", 1)]
             [("Austen", 2); ("Sagan", 2); ("Herbert", 1)] in
  analysis_summary s = Return (Some a) /\
  most_frequent category books (top_categories a) /\
  most_frequent author books (top_authors a).
Proof.
  intros books s a. split; [reflexivity|].
  apply (analysis_summary_rankings s a). reflexivity.
Defined.
End Analysis.

(** ** The score helpers of Unit 3 *)

Section ScoreHelpers.
Import Library LibraryMenu.





End ScoreHelpers.

(** ** The menu of the catalog *)

Section CatalogMenu.
Import Library LibraryMenu Invariants MenuSpec.

Lemma prompt_loop_first {A} (accept : string -> option A) (lines : list string) :
  match Students.prompt_loop accept lines with
  | (Return a, rest) =>
      exists skipped line, lines = skipped ++ line :: rest /\
        Forall (fun l => accept l = None) skipped /\ accept line = Some a
  | (Raise e, rest) =>
      e = EOFError /\ rest = [] /\ Forall (fun l => accept l = None) lines
  end.
Proof.
  induction lines as [|line lines IH]; simpl; [done|].
  destruct (accept line) as [a|] eqn:Ha.
  - exists [], line. by repeat split.
  - destruct (Students.prompt_loop accept lines) as [[a|e] rest].
    + destruct IH as (skipped & line' & -> & Hsk & Hline).
      exists (line :: skipped), line'. repeat split; [|done]. by constructor.
    + destruct IH as (-> & -> & Hall). repeat split. by constructor.
Qed.


Lemma accept_nonempty_cleaned line t :
  LibraryMenu.accept_nonempty line = Some t -> t = _clean_text line /\ cleaned t.
Proof.
  unfold LibraryMenu.accept_nonempty. fold (_clean_text line).
  destruct (String.eqb_spec (_clean_text line) "") as [E|E]; [done|].
  intros [= <-]. split; [done|]. split; [apply clean_text_idempotent|done].
Qed.

Lemma accept_status_canonical line st :
  accept_status line = Some st -> st ∈ ["issued"; "available"].
Proof.
  unfold accept_status. destruct (bool_decide _) eqn:E; [|done].
  apply bool_decide_eq_true in E. by intros [= <-].
Qed.

(** *** Rules for the commands of the menu *)

Lemma hoare_pre {S A} (P P' : S -> Prop) (c : M S A) Q E :
  (forall s, P' s -> P s) -> hoare P c Q E -> hoare P' c Q E.
Proof. intros HP. by apply hoare_weaken. Qed.

























End CatalogMenu.

(** ** What the menu of the catalog guarantees *)

Section CatalogMenuTheorems.
Import Library LibraryMenu Invariants MenuSpec.




Lemma hoare_typed_prompting {A} k0 j (accept : string -> option A) (Good : A -> Prop) :
  (forall line a, accept line = Some a -> Good a) ->
  hoare (typed k0 j) (LibraryMenu.prompting accept)
        (fun a k => Good a /\ typed k0 (S j) k) (ran_out k0).
Proof.
  intros Hgood k (Hsys & Hfiles & Hprinted & used & Hused & Hj).
  unfold LibraryMenu.prompting.
  pose proof (prompt_loop_first accept (stdin k)) as Hfirst.
  destruct (Students.prompt_loop accept (stdin k)) as [[a|e] rest].
  - destruct Hfirst as (skipped & line & Hlines & _ & Ha).
    split; [by eapply Hgood|]. repeat split; try done.
    exists (used ++ skipped ++ [line]). simpl. split.
    + rewrite Hused, Hlines, <- !app_assoc. done.
    + rewrite !length_app. simpl. lia.
  - destruct Hfirst as (-> & -> & _). by repeat split.
Qed.

(** X10. Adding a Book from the menu never fails validation: the prompts
    hand over only cleaned, non-empty texts and a canonical status. So
    option 6 always returns, and either it appended one Book with the next
    identifier and printed it, having read at least four lines, or the input
    ended first and the catalog is as it was, the end of input printed as
    the error. The files are never touched. *)
Theorem menu_add_is_always_accepted (k : Console) :
  exists k', option_6 k = (Return tt, k') /\ files k' = files k /\
    ((exists nb used,
        printed k' = printed k ++ [Added nb] /\
        system k' = set_books (_books (system k) ++ [nb]) (system k) /\
        bid nb = _next_id (system k) /\
        cleaned (title nb) /\ cleaned (author nb) /\ cleaned (category nb) /\
        status nb ∈ ["issued"; "available"] /\
        stdin k = used ++ stdin k' /\ (4 <= length used)%nat)
     \/
     (printed k' = printed k ++ [Error EOFError] /\ system k' = system k /\
      stdin k' = [])).
Proof.
  set (Added_one := fun (_ : unit) (k' : Console) =>
    files k' = files k /\
    exists nb used,
      printed k' = printed k ++ [Added nb] /\
      system k' = set_books (_books (system k) ++ [nb]) (system k) /\
      bid nb = _next_id (system k) /\
      cleaned (title nb) /\ cleaned (author nb) /\ cleaned (category nb) /\
      status nb ∈ ["issued"; "available"] /\
      stdin k = used ++ stdin k' /\ (4 <= length used)%nat).
  unfold option_6, try_except.
  set (body := bind LibraryMenu.prompt_nonempty _).
  assert (Hbody : hoare (typed k 0) body Added_one (ran_out k)).
  { unfold body. assert (Htext : forall j, hoare (typed k j) LibraryMenu.prompt_nonempty
                      (fun t k' => cleaned t /\ typed k (S j) k') (ran_out k)).
    { intros j. apply hoare_typed_prompting.
      intros line t Ht. by apply accept_nonempty_cleaned in Ht as [_ ?]. }
    eapply hoare_bind; [apply Htext|]. intros t. apply hoare_pure. intros [Ht Ht'].
    eapply hoare_bind; [apply Htext|]. intros a. apply hoare_pure. intros [Ha Ha'].
    eapply hoare_bind; [apply Htext|]. intros c. apply hoare_pure. intros [Hc Hc'].
    eapply hoare_bind.
    { apply hoare_typed_prompting. apply accept_status_canonical. }
    intros st. apply hoare_pure. intros Hst.
    intros k1 (Hsys & Hfiles & Hprinted & used & Hused & Hj).
    destruct (status_kept st Hst) as [Hnorm Hvalid].
    unfold bind, call.
    rewrite (add_book_accepts (system k1) t a c st)
      by (rewrite ?Ht, ?Ha, ?Hc, ?Hnorm; done).
    rewrite Ht, Ha, Hc, Hnorm. simpl. split; [done|].
    eexists _, used. rewrite Hprinted, Hsys.
    repeat split; try done; try apply Ht; try apply Ha; try apply Hc. }
  specialize (Hbody k). destruct (body k) as [[[]|e] k'].
  - destruct Hbody as [Hfiles Hadded].
    { repeat split; try done. by exists []. }
    exists k'. split; [done|]. split; [done|]. by left.
  - destruct Hbody as (-> & Hsys & Hfiles & Hprinted & Hin).
    { repeat split; try done. by exists []. }
    eexists. split; [reflexivity|]. simpl. split; [done|]. right.
    by rewrite Hprinted.
Qed.
End CatalogMenuTheorems.

(** ** The menu of the student records *)

Section StudentsMenuRules.
Import Students StudentsMenu Invariants MenuSpec.








Ltac drop_fact :=
  eapply hoare_pre; [intros ? [_ Hk]; exact Hk|].



(** A search that does not answer -1 answers an index of the list. *)
Lemma linear_search_hit rs target :
  linear_search_by_id rs target <> -1 ->
  exists r, rs !! Z.to_nat (linear_search_by_id rs target) = Some r /\
            student_id r = target /\
            forall (j : nat) r', (j < Z.to_nat (linear_search_by_id rs target))%nat ->
                                 rs !! j = Some r' -> student_id r' <> target.
Proof.
  unfold linear_search_by_id. intros Hne.
  destruct (linear_search_from_range rs 0 target) as [E|Hge]; [done|].
  apply (linear_search_from_found rs 0 target (Z.to_nat (linear_search_from rs 0 target)));
    lia.
Qed.






















End StudentsMenuRules.

(** ** What the menu of the student records guarantees *)

Section StudentsMenuTheorems.
Import Students StudentsMenu Invariants MenuSpec.






Lemma hoare_read_on_prompting {A} s0 (accept : string -> option A) :
  hoare (read_on s0) (prompting accept)
        (fun a s => (exists line, line ∈ stdin s0 /\ accept line = Some a) /\ read_on s0 s)
        (read_out s0).
Proof.
  intros s [Hrec [used Hused]]. unfold prompting.
  pose proof (prompt_loop_first accept (stdin s)) as Hfirst.
  destruct (prompt_loop accept (stdin s)) as [[a|e] rest].
  - destruct Hfirst as (skipped & line & Hlines & _ & Ha). split.
    + exists line. split; [|done]. rewrite Hused, Hlines. set_solver.
    + split; [done|]. exists (used ++ skipped ++ [line]). simpl.
      rewrite Hused, Hlines, <- !app_assoc. done.
  - destruct Hfirst as (-> & -> & _). by repeat split.
Qed.

Lemma read_on_refl s : read_on s s.
Proof. split; [done|]. by exists []. Qed.

Lemma accept_id_typed line target :
  accept_int_range 1 (10 ^ 9) line = Some target ->
  py_int (strip line) = Some target /\ 1 <= target <= 10 ^ 9.
Proof.
  unfold accept_int_range. destruct (py_int (strip line)) as [m|]; [|done].
  destruct (Z.leb_spec 1 m), (Z.leb_spec m (10 ^ 9)); simpl; try done.
  intros [= <-]. split; [done|lia].
Qed.

(** X14. A search reads one id from the input and never changes the
    Records. With no Records it reads nothing. Otherwise the id is a typed
    integer from 1 to 10^9, and the answer is the first Record with that id,
    or "not found" exactly when no Record has it; the index it computed is
    always one of the list, so no index error can arise, and the only
    exception is the end of the input. *)
Theorem search_record_finds_first_with_typed_id (s : Session) :
  match search_record s with
  | (Return None, s') => records s = [] /\ s' = s
  | (Return (Some answer), s') =>
      records s' = records s /\
      exists typed target,
        typed ∈ stdin s /\ py_int (strip typed) = Some target /\ 1 <= target <= 10 ^ 9 /\
        match answer with
        | Some r => exists i, first_with_id (records s) target i r
        | None => forall r, r ∈ records s -> student_id r <> target
        end
  | (Raise e, s') => e = EOFError /\ records s' = records s /\ stdin s' = []
  end.
Proof.
  unfold search_record, bind, get. destruct (bool_decide (records s = [])) eqn:Hempty.
  { apply bool_decide_eq_true in Hempty. by split. }
  pose proof (hoare_read_on_prompting s (accept_int_range 1 (10 ^ 9)) s (read_on_refl s))
    as Hprompt.
  unfold prompt_int_range.
  destruct (prompting (accept_int_range 1 (10 ^ 9)) s) as [[target|e] s1]; [|exact Hprompt].
  destruct Hprompt as [(typed & Htyped & Haccept) [Hrec _]].
  apply accept_id_typed in Haccept as [Hint Hrange]. rewrite Hrec.
  destruct (Z.eqb_spec (linear_search_by_id (records s) target) (-1)) as [E|Hhit].
  - simpl. split; [done|]. exists typed, target. repeat split; try done; try lia.
    by apply (linear_search_from_missing (records s) 0 target).
  - destruct (linear_search_hit _ _ Hhit) as (r & Hr & Hid & Hfirst). rewrite Hr. simpl.
    split; [done|]. exists typed, target. repeat split; try done; try lia.
    by eexists.
Qed.

(** X15. A deletion removes at most one Record and only after a yes. The
    outcome is either the Records unchanged, or the list without the
    first Record whose id is the integer typed, the confirmation having
    been answered y or yes, every other Record kept in its order. It never
    raises anything but the end of the input, and then nothing is
    deleted. *)
Theorem delete_record_removes_first_confirmed (s : Session) :
  match delete_record s with
  | (Return _, s') =>
      records s' = records s \/
      exists typed target answer i r,
        typed ∈ stdin s /\ py_int (strip typed) = Some target /\
        answer ∈ stdin s /\ lower (strip answer) ∈ ["y"; "yes"] /\
        first_with_id (records s) target i r /\
        records s' = delete i (records s)
  | (Raise e, s') => e = EOFError /\ records s' = records s /\ stdin s' = []
  end.
Proof.
  unfold delete_record, bind, get. destruct (bool_decide (records s = [])).
  { by left. }
  pose proof (hoare_read_on_prompting s (accept_int_range 1 (10 ^ 9)) s (read_on_refl s))
    as Hprompt.
  unfold prompt_int_range.
  destruct (prompting (accept_int_range 1 (10 ^ 9)) s) as [[target|e] s1]; [|exact Hprompt].
  destruct Hprompt as [(typed & Htyped & Haccept) Hs1].
  apply accept_id_typed in Haccept as [Hint Hrange].
  pose proof Hs1 as [Hrec _]. rewrite Hrec.
  destruct (Z.eqb_spec (linear_search_by_id (records s) target) (-1)) as [E|Hhit].
  { by left. }
  destruct (linear_search_hit _ _ Hhit) as (r & Hr & Hid & Hfirst).
  pose proof (hoare_read_on_prompting s accept_yes_no s1 Hs1) as Hconfirm.
  unfold prompt_yes_no.
  destruct (prompting accept_yes_no s1) as [[confirm|e] s2]; [|exact Hconfirm].
  destruct Hconfirm as [(answer & Hanswer & Hyes) [Hrec2 _]].
  destruct confirm; [|by left]. right. simpl. 
  exists typed, target, answer, (Z.to_nat (linear_search_by_id (records s) target)), r.
  split; [done|]. split; [done|]. split; [done|]. split.
  - revert Hyes. unfold accept_yes_no. cbv zeta.
    destruct (bool_decide (lower (strip answer) ∈ ["y"; "yes"])) eqn:Hy.
    + intros _. by apply bool_decide_eq_true in Hy.
    + destruct (bool_decide (lower (strip answer) ∈ ["n"; "no"])); intros [=].
  - split; [by repeat split|]. by rewrite Hrec2.
Qed.

End StudentsMenuTheorems.

(** ** The two sorts give the same list *)

Section StableSorts.
Import SortSpec.
Context {A K : Type} `{PyTotalOrder K} (key_fn : A -> K).

Lemma same_key_eq (a b : K) : same_key a b = true <-> a = b.
Proof.
  unfold same_key. rewrite andb_true_iff, !negb_true_iff. split.
  - intros [Hab Hba]. by apply py_lt_total.
  - intros ->. by rewrite py_lt_irrefl.
Qed.

Lemma keyed_cons k x l :
  keyed key_fn k (x :: l) =
    if same_key (key_fn x) k then x :: keyed key_fn k l else keyed key_fn k l.
Proof.
  unfold keyed. destruct (same_key (key_fn x) k) eqn:E.
  - by rewrite filter_cons_True.
  - rewrite filter_cons_False; [done|]. by rewrite E.
Qed.

Lemma keyed_app k l1 l2 :
  keyed key_fn k (l1 ++ l2) = keyed key_fn k l1 ++ keyed key_fn k l2.
Proof. apply filter_app. Qed.

Lemma keyed_none k l :
  Forall (fun y => key_fn y <> k) l -> keyed key_fn k l = [].
Proof.
  induction 1 as [|y l Hy Hl IH]; [done|]. rewrite keyed_cons.
  destruct (same_key (key_fn y) k) eqn:E; [|done]. by apply same_key_eq in E.
Qed.

Lemma keyed_own x l : keyed key_fn (key_fn x) (x :: l) = x :: keyed key_fn (key_fn x) l.
Proof.
  rewrite keyed_cons. by rewrite (proj2 (same_key_eq (key_fn x) (key_fn x))).
Qed.

(** One pass moves [current] left past strictly different keys only. *)
Lemma insert_keeps_keyed (before : K -> K -> bool) k l1a l1b current l2 :
  (forall a b, before a b = true -> a <> b) ->
  Forall (fun y => before (key_fn y) (key_fn current) = true) l1b ->
  keyed key_fn k (l1a ++ current :: l1b ++ l2)
    = keyed key_fn k ((l1a ++ l1b) ++ current :: l2).
Proof.
  intros Hstrict Hb. rewrite !keyed_app, !keyed_cons, !keyed_app, <- app_assoc.
  f_equal. destruct (same_key (key_fn current) k) eqn:E; [|done].
  apply same_key_eq in E. rewrite keyed_none; [done|].
  eapply Forall_impl; [exact Hb|]. intros y Hy. rewrite <- E. by apply Hstrict.
Qed.

Lemma insert_passes_stable (before : K -> K -> bool) (rest : list A) :
  (forall a b, before a b = true -> before b a = false) ->
  (forall a b, before a b = true -> a <> b) ->
  forall prefix,
    Sorted (fun x y => before (key_fn x) (key_fn y) = false) prefix ->
    exists l',
      insert_passes before key_fn (prefix ++ rest) (seq (length prefix) (length rest))
        = Some l' /\
      stable key_fn (prefix ++ rest) l'.
Proof.
  intros Hasym Hstrict.
  induction rest as [|current rest IH]; intros prefix Hs; simpl.
  - exists prefix. by rewrite app_nil_r.
  - destruct (insert_pass_run key_fn before prefix current rest)
      as (l1a & l1b & Hl & Hb & Hlast & Hrun).
    rewrite Hrun.
    assert (Hs' : Sorted (fun x y => before (key_fn x) (key_fn y) = false)
                         (l1a ++ current :: l1b)).
    { apply sorted_after_insert; [done|by rewrite <- Hl|done|done]. }
    destruct (IH _ Hs') as (l' & Hrun' & Hstable).
    assert (Hlen : length (l1a ++ current :: l1b) = S (length prefix)).
    { rewrite Hl, !length_app. simpl. lia. }
    rewrite Hlen in Hrun'. rewrite <- app_assoc in Hrun'. simpl in Hrun'.
    exists l'. split; [done|]. intros k. rewrite Hstable, Hl.
    rewrite <- app_assoc. simpl. by apply (insert_keeps_keyed before).
Qed.

Lemma insertion_sort_stable (records : list A) (reverse : bool) :
  exists l, insertion_sort records key_fn reverse = Some l /\ stable key_fn records l.
Proof.
  unfold insertion_sort.
  assert (Hrun : forall before : K -> K -> bool,
            (forall a b, before a b = true -> before b a = false) ->
            (forall a b, before a b = true -> a <> b) ->
            exists l, insert_passes before key_fn records (seq 1 (length records - 1))
                        = Some l /\ stable key_fn records l).
  { intros before Hasym Hstrict. destruct records as [|x rest].
    - by exists [].
    - replace (length (x :: rest) - 1)%nat with (length rest) by (simpl; lia).
      apply (insert_passes_stable before rest Hasym Hstrict [x]). repeat constructor. }
  destruct reverse.
  - apply Hrun; [apply py_lt_asym|].
    intros a b Hab ->. by rewrite py_lt_irrefl in Hab.
  - apply Hrun; unfold py_gt.
    + intros a b Hab. by apply py_lt_asym.
    + intros a b Hab ->. by rewrite py_lt_irrefl in Hab.
Qed.

Lemma sorted_head_least (l : list A) (a : A) :
  Sorted (key_rel py_le key_fn) (a :: l) ->
  Forall (fun y => py_le (key_fn a) (key_fn y) = true) l.
Proof.
  intros Hs. apply Sorted_StronglySorted in Hs.
  - by apply StronglySorted_inv in Hs as [_ Hall].
  - intros x y z. apply py_le_trans.
Qed.

(** A merge takes from the right run only a strictly smaller key. *)
Lemma merge_runs_keyed k (l1 : list A) : forall l2,
  Sorted (key_rel py_le key_fn) l1 ->
  keyed key_fn k (merge_runs key_fn l1 l2) = keyed key_fn k l1 ++ keyed key_fn k l2.
Proof.
  induction l1 as [|a l1 IH1]; intros l2 Hs1; [by destruct l2|].
  induction l2 as [|b l2 IH2].
  - by rewrite merge_runs_nil_r, app_nil_r.
  - rewrite merge_runs_cons. destruct (py_lt (key_fn b) (key_fn a)) eqn:Hba.
    + rewrite keyed_cons, IH2, (keyed_cons k b l2).
      destruct (same_key (key_fn b) k) eqn:E; [|done].
      apply same_key_eq in E. rewrite (keyed_none k (a :: l1)); [done|].
      constructor.
      * intros Ha. rewrite Ha, E in Hba. by rewrite py_lt_irrefl in Hba.
      * eapply Forall_impl; [exact (sorted_head_least l1 a Hs1)|]. intros y Hy Hyk.
        unfold py_le in Hy. apply negb_true_iff in Hy.
        rewrite Hyk, <- E in Hy. congruence.
    + rewrite keyed_cons, IH1, (keyed_cons k a l1) by (by apply Sorted_inv in Hs1 as [? _]).
      by destruct (same_key (key_fn a) k).
Qed.

Lemma merge_sort_stable fuel : forall l : list A,
  (length l <= fuel)%nat -> stable key_fn l (merge_sort fuel key_fn l).
Proof.
  induction fuel as [|fuel IH]; intros l Hlen k; [done|].
  destruct l as [|x [|y l]]; [done|done|].
  set (whole := x :: y :: l) in *.
  assert (Hhalf : (0 < length whole / 2 < length whole)%nat).
  { assert (2 <= length whole)%nat by (simpl; lia).
    split; [apply Nat.div_str_pos; lia|apply Nat.div_lt; lia]. }
  change (merge_sort (S fuel) key_fn whole)
    with (merge_runs key_fn (merge_sort fuel key_fn (take (length whole / 2) whole))
                            (merge_sort fuel key_fn (drop (length whole / 2) whole))).
  assert (Hleft : (length (take (length whole / 2) whole) <= fuel)%nat)
    by (rewrite length_take; lia).
  assert (Hright : (length (drop (length whole / 2) whole) <= fuel)%nat)
    by (rewrite length_drop; lia).
  rewrite merge_runs_keyed by (by apply merge_sort_correct).
  rewrite (IH _ Hleft k), (IH _ Hright k), <- keyed_app. by rewrite take_drop.
Qed.

Lemma py_sorted_stable (l : list A) (reverse : bool) :
  stable key_fn l (py_sorted l key_fn reverse).
Proof.
  intros k. unfold py_sorted. destruct reverse.
  - rewrite !rev_is_reverse. unfold keyed. rewrite filter_reverse.
    pose proof (merge_sort_stable (length l) (reverse l)) as Hs.
    rewrite length_reverse in Hs. specialize (Hs (le_n _) k). unfold keyed in Hs.
    rewrite Hs, filter_reverse. by rewrite reverse_involutive.
  - by apply merge_sort_stable.
Qed.

(** Two sorted lists with the same elements of every key, in the same
    order, are the same list. *)
Lemma stable_sorted_unique (rel : K -> K -> bool) (l1 : list A) : forall l2,
  (forall a b c, rel a b = true -> rel b c = true -> rel a c = true) ->
  (forall a b, rel a b = true -> rel b a = true -> a = b) ->
  Sorted (key_rel rel key_fn) l1 -> Sorted (key_rel rel key_fn) l2 ->
  (forall k, keyed key_fn k l1 = keyed key_fn k l2) -> l1 = l2.
Proof.
  intros l2 Htrans Hanti. revert l2.
  assert (Hleast : forall x l y, Sorted (key_rel rel key_fn) (x :: l) -> y ∈ x :: l ->
                     key_fn y = key_fn x \/ rel (key_fn x) (key_fn y) = true).
  { intros x l y Hs Hy. apply Sorted_StronglySorted in Hs; [|intros a b c; apply Htrans].
    apply StronglySorted_inv in Hs as [_ Hall].
    apply elem_of_cons in Hy as [-> | Hy]; [by left|right].
    rewrite Forall_forall in Hall. by apply Hall. }
  assert (Hmember : forall x l l', keyed key_fn (key_fn x) (x :: l) = keyed key_fn (key_fn x) l' ->
                      x ∈ l').
  { intros x l l' Hk. rewrite keyed_own in Hk.
    assert (Hx : x ∈ keyed key_fn (key_fn x) l') by (rewrite <- Hk; by left).
    unfold keyed in Hx. by apply list_elem_of_filter in Hx as [_ ?]. }
  induction l1 as [|x l1 IH]; intros [|y l2] Hs1 Hs2 Hkeyed.
  - done.
  - specialize (Hkeyed (key_fn y)). rewrite keyed_own in Hkeyed. done.
  - specialize (Hkeyed (key_fn x)). rewrite keyed_own in Hkeyed. done.
  - assert (Hkey : key_fn x = key_fn y).
    { pose proof (Hmember x l1 (y :: l2) (Hkeyed (key_fn x))) as Hx.
      pose proof (Hmember y l2 (x :: l1) (eq_sym (Hkeyed (key_fn y)))) as Hy.
      destruct (Hleast _ _ _ Hs2 Hx) as [E|Hyx]; [done|].
      destruct (Hleast _ _ _ Hs1 Hy) as [E|Hxy]; [done|]. by apply Hanti. }
    pose proof (Hkeyed (key_fn x)) as Hown.
    rewrite keyed_own, Hkey, keyed_own in Hown. injection Hown as -> Hrest.
    f_equal. apply IH.
    + by apply Sorted_inv in Hs1 as [? _].
    + by apply Sorted_inv in Hs2 as [? _].
    + intros k. specialize (Hkeyed k). rewrite !keyed_cons in Hkeyed.
      destruct (same_key (key_fn y) k) eqn:E; [|done].
      by injection Hkeyed.
Qed.

Lemma insertion_sort_equals_py_sorted (records : list A) (reverse : bool) :
  exists l,
    insertion_sort records key_fn reverse = Some l /\
    stable key_fn records l /\
    stable key_fn records (py_sorted records key_fn reverse) /\
    l = py_sorted records key_fn reverse.
Proof.
  destruct (insertion_sort_stable records reverse) as (l & Hrun & Hstable).
  pose proof (py_sorted_stable records reverse) as Hplatform.
  exists l. split; [done|]. split; [done|]. split; [done|].
  assert (Hkeyed : forall k, keyed key_fn k l = keyed key_fn k (py_sorted records key_fn reverse)).
  { intros k. by rewrite Hstable, Hplatform. }
  destruct reverse.
  - destruct (insertion_sort_descending records key_fn) as (l' & Hrun' & Hs & _).
    rewrite Hrun in Hrun'. injection Hrun' as <-.
    destruct (py_sorted_descending key_fn records) as [Hs' _].
    apply (stable_sorted_unique py_ge); try done.
    + intros a b c Hab Hbc. rewrite py_ge_le in *. by apply (py_le_trans c b a).
    + intros a b Hab Hba. rewrite py_ge_le in *. by apply py_le_antisym.
  - destruct (insertion_sort_ascending records key_fn) as (l' & Hrun' & Hs & _).
    rewrite Hrun in Hrun'. injection Hrun' as <-.
    destruct (py_sorted_ascending key_fn records) as [Hs' _].
    apply (stable_sorted_unique py_le); try done.
    + apply py_le_trans.
    + apply py_le_antisym.
Qed.
End StableSorts.

Section StableSortTheorem.
Import SortSpec Library.

(** X17. The manual insertion sort is stable, and so is the platform sort
    as modelled; since a stable sort of a list is unique, the two give the
    very same list for every key and direction, Records of equal keys
    staying in their original order. So the catalog sorted by title is
    exactly what the platform sort by lower-cased title would give. *)
Theorem manual_sort_is_the_stable_sort :
  (forall (A K : Type) (O : PyOrd K), PyTotalOrder K ->
   forall (key_fn : A -> K) (records : list A) (reverse : bool),
     exists l,
       insertion_sort records key_fn reverse = Some l /\
       stable key_fn records l /\
       stable key_fn records (py_sorted records key_fn reverse) /\
       l = py_sorted records key_fn reverse)
  /\
  (forall s : LibrarySystem,
     insertion_sort_by_title s =
       (Return tt, set_books (py_sorted (_books s) title_key false) s)).
Proof.
  split.
  - intros A K O T key_fn records reverse. apply insertion_sort_equals_py_sorted.
  - intros s.
    destruct (insertion_sort_equals_py_sorted title_key (_books s) false)
      as (l & Hrun & _ & _ & <-).
    unfold insertion_sort_by_title, bind, get. unfold insertion_sort in Hrun.
    by rewrite Hrun.
Qed.

Lemma manual_sort_is_the_stable_sort_witness :
  let rows := [("d", 2); ("a", 1); ("c", 2); ("b", 1); ("e", 0)] in
  insertion_sort rows snd false = Some [("e", 0); ("a", 1); ("b", 1); ("d", 2); ("c", 2)] /\
  insertion_sort rows snd true = Some [("d", 2); ("c", 2); ("a", 1); ("b", 1); ("e", 0)] /\
  exists l,
    insertion_sort rows snd true = Some l /\
    stable snd rows l /\
    stable snd rows (py_sorted rows snd true) /\
    l = py_sorted rows snd true.
Proof.
  intros rows. split; [reflexivity|]. split; [reflexivity|].
  exact (proj1 manual_sort_is_the_stable_sort (string * Z)%type Z PyOrd_Z PyTotalOrder_Z
               snd rows true).
Defined.
End StableSortTheorem.

(** ** The figures of the summary *)

Section SummaryFigures.
Import Students StatsSpec.




End SummaryFigures.

(** ** Adding and sorting student records *)

Section StudentsCommands.
Import Students Invariants MenuSpec.


(** X20. Adding a Record is all or nothing. Either the eight prompts were
    answered, and exactly one Record was appended: it carries the next id,
    texts that are trimmed and not empty, and scores within 0..100. Or the
    input ended first, the only exception possible, and the Records are as
    they were. *)
Theorem add_record_is_all_or_nothing (s : Session) :
  match add_record s with
  | (Return _, s') =>
      exists r, records s' = records s ++ [r] /\
                student_id r = next_available_id (records s) /\
                valid_record r
  | (Raise e, s') => e = EOFError /\ records s' = records s /\ stdin s' = []
  end.
Proof.
  assert (Hrun : hoare (read_on s) add_record
            (fun _ s' => exists r, records s' = records s ++ [r] /\
                           student_id r = next_available_id (records s) /\
                           valid_record r)
            (read_out s)).
  { unfold add_record. eapply hoare_bind; [apply hoare_get|]. intros s0.
    assert (Htext : hoare (fun s1 => s0 = s1 /\ read_on s s1 \/ read_on s s1)
                      prompt_nonempty
                      (fun v s1 => trimmed v /\ (s0 = s1 /\ read_on s s1 \/ read_on s s1))
                      (read_out s)).
    { eapply hoare_weaken; [| | |apply (hoare_read_on_prompting s accept_nonempty)].
      - intros s1 [[_ ?] | ?]; done.
      - intros v s1 [(line & _ & Hv) Hs1]. split; [|by right].
        by apply accept_nonempty_trimmed in Hv.
      - done. }
    assert (Hscore : hoare (fun s1 => s0 = s1 /\ read_on s s1 \/ read_on s s1)
                      (prompt_int_range 0 100)
                      (fun v s1 => in_bound v /\ (s0 = s1 /\ read_on s s1 \/ read_on s s1))
                      (read_out s)).
    { eapply hoare_weaken; [| | |apply (hoare_read_on_prompting s (accept_int_range 0 100))].
      - intros s1 [[_ ?] | ?]; done.
      - intros v s1 [(line & _ & Hv) Hs1]. split; [|by right].
        by apply accept_score_in_bound in Hv.
      - done. }
    assert (Hs0 : forall s1, s0 = s1 /\ read_on s s1 -> records s0 = records s).
    { by intros s1 [-> [? _]]. }
    apply (hoare_pre (fun s1 => records s0 = records s /\
                                (s0 = s1 /\ read_on s s1 \/ read_on s s1))).
    { intros s1 Hs1. split; [by apply (Hs0 s1)|by left]. }
    apply hoare_pure. intros Hrec0.
    eapply hoare_bind; [exact Htext|]. intros g. apply hoare_pure. intros Hg.
    eapply hoare_bind; [exact Htext|]. intros ra. apply hoare_pure. intros Hra.
    eapply hoare_bind; [exact Htext|]. intros pe. apply hoare_pure. intros Hpe.
    eapply hoare_bind; [exact Htext|]. intros lu. apply hoare_pure. intros Hlu.
    eapply hoare_bind; [exact Htext|]. intros pr. apply hoare_pure. intros Hpr.
    eapply hoare_bind; [exact Hscore|]. intros m. apply hoare_pure. intros Hm.
    eapply hoare_bind; [exact Hscore|]. intros r. apply hoare_pure. intros Hr.
    eapply hoare_bind; [exact Hscore|]. intros w. apply hoare_pure. intros Hw.
    apply hoare_modify. intros s1 Hs1.
    assert (Hrec1 : records s1 = records s) by (destruct Hs1 as [[_ [? _]] | [? _]]; done).
    eexists. simpl. rewrite Hrec1, Hrec0. split; [reflexivity|]. split; [reflexivity|].
    unfold valid_record. simpl. tauto. }
  exact (Hrun s (read_on_refl s)).
Qed.
End StudentsCommands.
